(** * TopKDistance: a shallow embedding of [metrics/top_k_distance.py]

    The module computes, for two collections of feature vectors, a pairwise
    distance matrix, the rank of every diagonal entry inside its column, and
    a report of top-K percentages.

    Modelling choices.
    - Tensor elements are real numbers ([R]): float rounding, overflow and
      underflow are idealised away, so the statements below are about shapes,
      orderings, exceptions and exact identities, not about rounded values.
      Where the order of a float32 summation matters, [torch.mean] is also
      given in IEEE binary32 arithmetic (module [Float32]).  The only IEEE behaviour kept is the one the distance engine can
      actually produce from finite inputs, a division by a zero norm; matrix
      entries are therefore extended reals ([xreal]) with infinities and NaN.
    - Ranks are natural numbers, the requested percentages are Python ints
      ([Z]) and the reported scores are exact rationals ([Q]).
    - [torch.sort] is modelled as a stable sort; the bounds on the ranks
      hold for any comparison, and the inputs evaluated below have no tie
      that involves a diagonal entry.
    - A Python [dict] is an association list in insertion order.
    - Raised exceptions are values of [exn]; a function that can raise
      returns [exn + _]. *)

From Stdlib Require Import String Ascii DecimalString DecimalNat DecimalZ.
From Stdlib Require Import Bool Arith ZArith QArith Reals Lra Lia SpecFloat.
From Stdlib Require Import List Permutation Sorted.
Import ListNotations.

Set Implicit Arguments.
Local Open Scope nat_scope.

(* ================================================================== *)
(** * Python values used by the module *)

Module Py.

(** Exceptions raised by the module or by indexing. *)
Inductive exn : Type :=
| ValueError (msg : string)
| KeyError (key : string)
| IndexError
| RuntimeError.

Definition result (A : Type) : Type := (exn + A)%type.

Definition ret {A} (a : A) : result A := inr a.
Definition raise {A} (e : exn) : result A := inl e.
Definition bind {A B} (m : result A) (k : A -> result B) : result B :=
  match m with
  | inl e => inl e
  | inr a => k a
  end.

(** [for x in xs: ...] collecting the results, stopping at the first
    exception. *)
Fixpoint for_each {A B} (f : A -> result B) (xs : list A) : result (list B) :=
  match xs with
  | [] => ret []
  | x :: xs' =>
      bind (f x) (fun y => bind (for_each f xs') (fun ys => ret (y :: ys)))
  end.

(** [str(n)] for an int. *)
Definition str_nat (n : nat) : string := NilZero.string_of_uint (Nat.to_uint n).
Definition str_int (z : Z) : string := NilZero.string_of_int (Z.to_int z).

(** [str(l)] for a list of strings without quotes or escapes:
    ['a', 'b']. *)
Fixpoint join (sep : string) (l : list string) : string :=
  match l with
  | [] => EmptyString
  | [s] => s
  | s :: l' => (s ++ sep ++ join sep l')%string
  end.

Definition repr_str (s : string) : string := ("'" ++ s ++ "'")%string.

Definition str_list (l : list string) : string :=
  ("[" ++ join ", " (map repr_str l) ++ "]")%string.

(** A [dict] with string keys, in insertion order. *)
Definition dict (V : Type) : Type := list (string * V).

Fixpoint dict_get {V} (d : dict V) (k : string) : option V :=
  match d with
  | [] => None
  | (k', v) :: d' => if String.eqb k' k then Some v else dict_get d' k
  end.

(** [d[k] = v]: overwrite in place when the key exists, append otherwise. *)
Fixpoint dict_set {V} (d : dict V) (k : string) (v : V) : dict V :=
  match d with
  | [] => [(k, v)]
  | (k', v') :: d' =>
      if String.eqb k' k then (k, v) :: d' else (k', v') :: dict_set d' k v
  end.

Definition dict_keys {V} (d : dict V) : list string := map fst d.

(** [k in d] *)
Definition dict_mem {V} (d : dict V) (k : string) : bool :=
  match dict_get d k with Some _ => true | None => false end.

End Py.

Import Py.

(* ================================================================== *)
(** * The rank extractor, [TopKDistance._compute_diag_ranks]

    It only compares matrix entries, so it is stated over any entry type
    with a strict "greater than" test. *)

Section DiagRanks.

Context {A : Type}.
Variable gtb : A -> A -> bool.

(** One step of a stable descending sort of (index, value) pairs: the new
    pair comes from further left in the input than everything in [l], so it
    goes in front of the first entry that is not strictly greater. *)
Fixpoint insert_desc (x : nat * A) (l : list (nat * A)) : list (nat * A) :=
  match l with
  | [] => [x]
  | y :: l' =>
      if gtb (snd y) (snd x) then y :: insert_desc x l' else x :: y :: l'
  end.

Definition sort_desc (l : list (nat * A)) : list (nat * A) :=
  fold_right insert_desc [] l.

Definition enumerate (col : list A) : list (nat * A) :=
  combine (seq 0 (length col)) col.

(** [torch.sort(col, descending=True)]: the pair (values, indices). *)
Definition torch_sort_desc (col : list A) : list A * list nat :=
  let s := sort_desc (enumerate col) in (map snd s, map fst s).

(** [matrix[:, i]]; indexing a row that is too short raises. *)
Definition column (matrix : list (list A)) (i : nat) : result (list A) :=
  for_each (fun row => match nth_error row i with
                       | Some x => ret x
                       | None => raise IndexError
                       end) matrix.

(** [(v == i).nonzero()[0].item()]: the first position holding [i]. *)
Fixpoint first_nonzero (i : nat) (v : list nat) : result nat :=
  match v with
  | [] => raise IndexError
  | j :: v' =>
      if Nat.eqb j i then ret 0
      else bind (first_nonzero i v') (fun p => ret (S p))
  end.

(** The body of the loop: [ranks[i] = (indices[:, i] == i).nonzero()[0].item() + 1]. *)
Definition diag_rank (matrix : list (list A)) (i : nat) : result nat :=
  bind (column matrix i) (fun col =>
  bind (first_nonzero i (snd (torch_sort_desc col))) (fun p =>
  ret (p + 1))).

Definition _compute_diag_ranks (matrix : list (list A)) : result (list nat) :=
  for_each (diag_rank matrix) (seq 0 (length matrix)).

End DiagRanks.

(* ================================================================== *)
(** * The part of torch the module calls *)

Module Torch.

Local Open Scope R_scope.

(** ** Tensors

    A tensor of rank [n] is an [n]-fold nested list of reals; a value of
    unknown rank, as Python passes it around, is a pair of a rank and a
    tensor of that rank.  Theorems assume nested lists that are
    rectangular. *)
Fixpoint tensor (n : nat) : Type :=
  match n with
  | O => R
  | S n' => list (tensor n')
  end.

Definition Tensor : Type := { n : nat & tensor n }.

Definition ndim (t : Tensor) : nat := projT1 t.

Definition matrix : Type := list (list R).
Definition cube : Type := list (list (list R)).

Definition tensor2 (m : matrix) : Tensor := existT tensor 2%nat m.
Definition tensor3 (c : cube) : Tensor := existT tensor 3%nat c.

(** ** Extended reals: what a float division can return on finite
    operands.  A finite value divided by a zero norm is an infinity, or
    NaN when the numerator is zero too. *)
Inductive xreal : Type :=
| Finite (r : R)
| PInf
| NInf
| NaN.

Definition Rgtb (x y : R) : bool := if Rgt_dec x y then true else false.
Definition Rleb (x y : R) : bool := if Rle_dec x y then true else false.
Definition Reqb (x y : R) : bool := if Req_dec_T x y then true else false.

(** [x / d] for a divisor that is a norm ([d] is never negative). *)
Definition xdiv (x : xreal) (d : R) : xreal :=
  match x with
  | Finite r =>
      if Reqb d 0 then
        if Reqb r 0 then NaN else if Rgtb r 0 then PInf else NInf
      else Finite (r / d)
  | PInf => PInf
  | NInf => NInf
  | NaN => NaN
  end.

(** [1 - x] *)
Definition one_minus (x : xreal) : xreal :=
  match x with
  | Finite r => Finite (1 - r)
  | PInf => NInf
  | NInf => PInf
  | NaN => NaN
  end.

(** The order [torch.sort] uses: NaN is greater than every number. *)
Definition xgtb (x y : xreal) : bool :=
  match x, y with
  | NaN, NaN => false
  | NaN, _ => true
  | _, NaN => false
  | PInf, PInf => false
  | PInf, _ => true
  | _, PInf => false
  | NInf, _ => false
  | Finite _, NInf => true
  | Finite a, Finite b => Rgtb a b
  end.

(** ** Reductions over a list of reals *)
Definition sum (l : list R) : R := fold_right Rplus 0 l.

(** Over the reals the order of the summands is immaterial; the float32
    sum in index order is [Float32.mean]. *)
Definition mean (l : list R) : R := sum l / INR (length l).

Fixpoint insert_asc (x : R) (l : list R) : list R :=
  match l with
  | [] => [x]
  | y :: l' => if Rleb x y then x :: l else y :: insert_asc x l'
  end.

Definition sort_asc (l : list R) : list R := fold_right insert_asc [] l.

(** [torch.median]: the lower of the two middle values when the length is
    even. *)
Definition median (l : list R) : R :=
  nth ((length l - 1) / 2) (sort_asc l) 0.

(** [torch.max(v)[0]] over a non-empty last axis. *)
Definition max_list (l : list R) : R :=
  match l with
  | [] => 0
  | x :: l' => fold_left Rmax l' x
  end.

(** [x ** y] for a base that is a sum of absolute values. *)
Definition pow (x y : R) : R := if Reqb x 0 then 0 else Rpower x y.

(** [torch.norm(v, p=p)] along the last axis, without the overflow and
    underflow of the float32 squares and powers. *)
Definition norm2 (v : list R) : R := sqrt (sum (map (fun x => x * x) v)).
Definition norm (p : nat) (v : list R) : R :=
  pow (sum (map (fun x => Rabs x ^ p) v)) (/ INR p).

Definition dot (u v : list R) : R := sum (map (fun p => fst p * snd p) (combine u v)).

(** [u - v] on two vectors of the same length. *)
Definition sub (u v : list R) : list R := map (fun p => fst p - snd p) (combine u v).

(** ** Reductions along the sample axis of an (N, S, F) tensor *)

(** [item[:, f]] *)
Definition sample_axis (item : list (list R)) (f : nat) : list R :=
  map (fun s => nth f s 0) item.

Definition reduce_dim1 (red : list R -> R) (c : cube) : matrix :=
  map (fun item =>
         map (fun f => red (sample_axis item f))
             (seq 0 (length (hd [] item)))) c.

Definition mean_dim1 : cube -> matrix := reduce_dim1 mean.
Definition median_dim1 : cube -> matrix := reduce_dim1 median.

(** [F.cosine_similarity(u, v, dim=-1)] with its default [eps = 1e-8]:
    each norm is clamped from below by [eps].  The quotient is exact here;
    the float32 one is rounded. *)
Definition cosine_eps : R := 1 / 100000000.
Definition cosine_similarity (u v : list R) : R :=
  dot u v / (Rmax (norm2 u) cosine_eps * Rmax (norm2 v) cosine_eps).

(** [f(arr1[:, None, :], arr2[None, :, :])] reduced over the last axis:
    entry (i, j) is [f arr1[i] arr2[j]]. *)
Definition pairwise {B} (f : list R -> list R -> B) (arr1 arr2 : matrix)
  : list (list B) :=
  map (fun a => map (fun b => f a b) arr2) arr1.

(** [m / v] where [v] has the length of the last axis of [m]: broadcasting
    divides column [j] by [v[j]].  Operands of other lengths, on which torch
    raises, are excluded by the hypotheses of the statements. *)
Definition div_last_axis (m : list (list xreal)) (v : list R) : list (list xreal) :=
  map (fun row => map (fun p => xdiv (fst p) (snd p)) (combine row v)) m.

End Torch.

Import Torch.

(* ================================================================== *)
(** * The class [TopKDistance] *)

(** The two attributes set by [__init__]; its dictionaries [_methods] and
    [_aggregs] do not depend on the arguments and are the constants below. *)
Record TopKDistance : Type := {
  method : string;
  aggregate : string
}.

Definition __init__ (method aggregate : string) : TopKDistance :=
  {| method := method; aggregate := aggregate |}.

Definition default : TopKDistance := __init__ "euclidean" "mean".

(** ** The distance engine *)

Section Distances.

Local Open Scope R_scope.

Definition _euclidean (arr1 arr2 : matrix) : list (list xreal) :=
  pairwise (fun a b => Finite (norm2 (sub a b))) arr1 arr2.

Definition _cosine (arr1 arr2 : matrix) : list (list xreal) :=
  pairwise (fun a b => Finite (1 - cosine_similarity a b)) arr1 arr2.

(** [centered = arr - torch.mean(arr, dim=-1, keepdim=True)] *)
Definition center (arr : matrix) : matrix :=
  map (fun row => map (fun x => x - mean row) row) arr.

(** The two divisions are by vectors of norms, one norm per row of the
    centred inputs; broadcasting lines them up with the last axis of the
    (N, M) matrix of sums, so entry (i, j) is divided by the norms of row
    [j] of both inputs. *)
Definition _correlation (arr1 arr2 : matrix) : list (list xreal) :=
  let centered1 := center arr1 in
  let centered2 := center arr2 in
  map (map one_minus)
      (div_last_axis
         (div_last_axis
            (pairwise (fun a b => Finite (sum (map (fun p => fst p * snd p)
                                                   (combine a b))))
                      centered1 centered2)
            (map norm2 centered1))
         (map norm2 centered2)).

Definition _chebyshev (arr1 arr2 : matrix) : list (list xreal) :=
  pairwise (fun a b => Finite (max_list (map Rabs (sub a b)))) arr1 arr2.

Definition _minkowski (arr1 arr2 : matrix) : list (list xreal) :=
  pairwise (fun a b => Finite (norm 3 (sub a b))) arr1 arr2.

Definition _cityblock (arr1 arr2 : matrix) : list (list xreal) :=
  pairwise (fun a b => Finite (sum (map Rabs (sub a b)))) arr1 arr2.

End Distances.

Definition _methods : dict (matrix -> matrix -> list (list xreal)) :=
  [ ("euclidean", _euclidean);
    ("cosine", _cosine);
    ("correlation", _correlation);
    ("chebyshev", _chebyshev);
    ("minkowski", _minkowski);
    ("cityblock", _cityblock) ]%string.

(** ** The aggregator *)

Section Aggregations.

Local Open Scope R_scope.

(** [emb.ndim == 3] selects the payload of a rank-3 tensor. *)
Definition as_cube (emb : Tensor) : option cube :=
  match emb with
  | existT _ n x =>
      match n return tensor n -> option cube with
      | 3%nat => fun c => Some c
      | _ => fun _ => None
      end x
  end.

Definition as_matrix (emb : Tensor) : option matrix :=
  match emb with
  | existT _ n x =>
      match n return tensor n -> option matrix with
      | 2%nat => fun m => Some m
      | _ => fun _ => None
      end x
  end.

Definition _mean (emb : Tensor) : Tensor :=
  match as_cube emb with
  | Some c => tensor2 (mean_dim1 c)
  | None => emb
  end.

Definition _median (emb : Tensor) : Tensor :=
  match as_cube emb with
  | Some c => tensor2 (median_dim1 c)
  | None => emb
  end.

Definition epsilon : R := 1 / 100000000.

(** [ln] stands for [torch.log] where the argument is positive, and both
    [ln] and [exp] are exact: only the shape of the result and the dispatch
    on the rank are relied upon below. *)
Definition _robust_mean (emb : Tensor) : Tensor :=
  match as_cube emb with
  | Some c =>
      let log_embeddings := map (map (map (fun x => ln (x + epsilon)))) c in
      let avg_log_embeddings := mean_dim1 log_embeddings in
      tensor2 (map (map exp) avg_log_embeddings)
  | None => emb
  end.

End Aggregations.

Definition _aggregs : dict (Tensor -> Tensor) :=
  [ ("mean", _mean);
    ("median", _median);
    ("robust_mean", _robust_mean) ]%string.

(** ** The scorer: the second half of [__call__] *)

Section Scorer.

Local Open Scope Q_scope.

Definition Qnat (n : nat) : Q := inject_Z (Z.of_nat n).

(** [t.sum()] of a boolean tensor. *)
Definition sum_bool (l : list bool) : nat :=
  fold_right (fun b n => (Nat.b2n b + n)%nat) 0%nat l.

(** [matrix.shape[0] * (k/100)] *)
Definition number_values (n : nat) (k : Z) : Q := Qnat n * (inject_Z k / 100).

(** [ranks <= number_values] *)
Definition le_threshold (number_values : Q) (ranks : list nat) : list bool :=
  map (fun r => Qle_bool (Qnat r) number_values) ranks.

(** The value stored under ['top'+str(k)]. *)
Definition top_score (ranks : list nat) (n : nat) (k : Z) : Q :=
  let r := sum_bool (le_threshold (number_values n k) ranks) in
  (Qnat r / Qnat n) * 100.

Definition top_key (k : Z) : string := ("top" ++ str_int k)%string.

(** [torch.mean(ranks.float(), dim=0)] *)
Definition mean_of_ranks (ranks : list nat) : Q :=
  Qnat (fold_right Nat.add 0%nat ranks) / Qnat (length ranks).

(** Everything after [ranks = self._compute_diag_ranks(matrix)], with
    [n = matrix.shape[0]]. *)
Definition score_report (ranks : list nat) (n : nat) (k_range : list Z) : dict Q :=
  let mean_ranks := mean_of_ranks ranks in
  let dict_score :=
    fold_left (fun d k => dict_set d (top_key k) (top_score ranks n k))
              k_range [] in
  let dict_score := dict_set dict_score "mean_ranks" ((mean_ranks / Qnat n) * 100) in
  let r_exact := sum_bool (map (fun r => Nat.eqb r 0) ranks) in
  dict_set dict_score "exact_matching" ((Qnat r_exact / Qnat n) * 100).

End Scorer.

(** ** The orchestrator, [TopKDistance.__call__] *)

Definition method_error (m : string) : exn :=
  ValueError (m ++ " not in list of defined methods. Please choose from "
                ++ str_list (dict_keys _methods))%string.

Definition aggregate_error (a : string) : exn :=
  ValueError (a ++ " not in list of defined aggregations. Please choose from "
                ++ str_list (dict_keys _aggregs))%string.

Definition shape_error (name : string) (n : nat) : exn :=
  ValueError (name ++ " should be a 2D or 3D tensor, but got "
                   ++ str_nat n ++ "D tensor")%string.

(** [n in [2, 3]] *)
Definition in_2_3 (n : nat) : bool := existsb (Nat.eqb n) [2; 3].

(** The distance functions index both arguments as [arr[:, None, :]]:
    they take rank-2 tensors. *)
Definition rank2 (arr : Tensor) : result matrix :=
  match as_matrix arr with
  | Some m => ret m
  | None => raise RuntimeError
  end.

(** [d[k]] for a key that may be missing. *)
Definition getitem {V} (d : dict V) (k : string) : result V :=
  match dict_get d k with
  | Some v => ret v
  | None => raise (KeyError k)
  end.

Definition __call__ (self : TopKDistance) (arr1 arr2 : Tensor) (k_range : list Z)
  : result (dict Q) :=
  if negb (dict_mem _methods (method self)) then raise (method_error (method self))
  else if negb (dict_mem _aggregs (aggregate self)) then
    raise (aggregate_error (aggregate self))
  else if negb (in_2_3 (ndim arr1)) then raise (shape_error "arr1" (ndim arr1))
  else if negb (in_2_3 (ndim arr2)) then raise (shape_error "arr2" (ndim arr2))
  else
    bind (if Nat.eqb (ndim arr1) 3
          then bind (getitem _aggregs (aggregate self)) (fun f => ret (f arr1))
          else ret arr1) (fun arr1 =>
    bind (if Nat.eqb (ndim arr2) 3
          then bind (getitem _aggregs (aggregate self)) (fun f => ret (f arr2))
          else ret arr2) (fun arr2 =>
    bind (getitem _methods (method self)) (fun dist =>
    bind (rank2 arr1) (fun m1 =>
    bind (rank2 arr2) (fun m2 =>
    let matrix := dist m1 m2 in
    bind (_compute_diag_ranks xgtb matrix) (fun ranks =>
    ret (score_report ranks (length matrix) k_range))))))).

(* ================================================================== *)
(** * Vocabulary of the statements *)

(** A matrix with [n] rows of [n] entries. *)
Definition square {A} (n : nat) (m : list (list A)) : Prop :=
  length m = n /\ Forall (fun row => length row = n) m.

(** The names accepted for the two attributes. *)
Definition supported_methods : list string :=
  ["euclidean"; "cosine"; "correlation"; "chebyshev"; "minkowski"; "cityblock"]%string.

Definition supported_aggregations : list string :=
  ["mean"; "median"; "robust_mean"]%string.

(** The rank extractor as the specification words it: each column is sorted
    ascending (smallest first, ties in row order), and the rank is one plus
    the position of the diagonal entry. *)
Definition xltb (x y : xreal) : bool := xgtb y x.

Definition spec_compute_diag_ranks (matrix : list (list xreal)) : result (list nat) :=
  _compute_diag_ranks xltb matrix.

(** The top-K score as the specification words it: the number of items whose
    rank is at most [N * (K / 100)], divided by [N], times 100. *)
Definition spec_count (ranks : list nat) (threshold : Q) : nat :=
  length (filter (fun r => Qle_bool (Qnat r) threshold) ranks).

Definition spec_top_score (ranks : list nat) (k : Z) : Q :=
  let n := length ranks in
  (Qnat (spec_count ranks (Qnat n * (inject_Z k / 100))) / Qnat n * 100)%Q.

(** Exact matching as the specification words it: the share of items whose
    rank is 1, in percent. *)
Definition spec_exact_matching (ranks : list nat) : Q :=
  (Qnat (length (filter (fun r => Nat.eqb r 1) ranks)) / Qnat (length ranks) * 100)%Q.

(** Concrete inputs of the statements. *)

(** The distance matrix of two items, each at distance 0 from its own match
    and at distance 1 from the other one. *)
Definition two_matched_items : list (list xreal) :=
  [[Finite 0; Finite 1]; [Finite 1; Finite 0]]%R.

(** Two one-feature collections whose distance matrix has its largest
    entries on the diagonal. *)
Definition crossed_a : matrix := [[0]; [1]]%R.
Definition crossed_b : matrix := [[1]; [0]]%R.

(** The matrix of the docstring example of [__call__]. *)
Definition example_collection : matrix :=
  [[7/10; 2/10; 1/10]; [3/10; 5/10; 2/10]; [1/10; 3/10; 6/10]]%R.

(** Relative to a diagonal entry [v]: an (index, value) pair that the
    descending sort puts strictly before [v], and one that it puts strictly
    after [v]. *)
Definition above {A} (gtb : A -> A -> bool) (v : A) (y : nat * A) : Prop :=
  gtb (snd y) v = true /\ gtb v (snd y) = false.

Definition below {A} (gtb : A -> A -> bool) (v : A) (y : nat * A) : Prop :=
  gtb (snd y) v = false /\ gtb v (snd y) = true.

(** A collection whose first item is a constant vector. *)
Definition constant_first_row : matrix := [[1; 1]; [1; 2]]%R.

(** Two rank-3 inputs that differ by a reordering of the samples of each
    item. *)
Definition samples_permuted (c c' : cube) : Prop :=
  Forall2 (fun item item' => Permutation item item') c c'.

(** Every sample of every item has [f] features. *)
Definition regular (f : nat) (c : cube) : Prop :=
  Forall (fun item => Forall (fun sample => length sample = f) item) c.

(** The methods computed pair by pair over the two collections; the
    correlation method also divides by whole vectors of norms. *)
Definition pairwise_methods : list string :=
  ["euclidean"; "cosine"; "chebyshev"; "minkowski"; "cityblock"]%string.

(** [m[i][j]], when both indices are in range. *)
Definition entry {B} (m : list (list B)) (i j : nat) : option B :=
  match nth_error m i with
  | Some row => nth_error row j
  | None => None
  end.

(** A matrix with [n] rows of [f] entries. *)
Definition shape2 {B} (n f : nat) (m : list (list B)) : Prop :=
  length m = n /\ Forall (fun row => length row = f) m.

(** A rank-2 tensor of shape (N, F) with F >= 1, given as its N rows. *)
Definition collection (f : nat) (X : matrix) : Prop :=
  0 < f /\ Forall (fun row => length row = f) X.

(** A percentage. *)
Definition in_percent (q : Q) : Prop := (0 <= q /\ q <= 100)%Q.

(** No entry of a distance matrix is negative or NaN: it is a non-negative
    number or, after an overflow, plus infinity. *)
Definition never_negative (m : list (list xreal)) : Prop :=
  Forall (Forall (fun x => x = PInf \/ exists r, x = Finite r /\ (0 <= r)%R)) m.

(* ================================================================== *)
(** * [torch.mean] along the sample axis in float32

    A float32 value is a [spec_float] of precision 24 and maximal exponent
    128; the sum starts from +0 and adds the samples in index order, each
    addition and the final division being rounded to nearest even. *)

Module Float32.

Definition prec : Z := 24.
Definition emax : Z := 128.

Definition add : spec_float -> spec_float -> spec_float := SFadd prec emax.
Definition div : spec_float -> spec_float -> spec_float := SFdiv prec emax.

(** The float32 value of a count. *)
Definition of_nat (n : nat) : spec_float :=
  binary_normalize prec emax (Z.of_nat n) 0 false.

Definition sum (l : list spec_float) : spec_float :=
  fold_left add l (S754_zero false).

Definition mean (l : list spec_float) : spec_float :=
  div (sum l) (of_nat (length l)).

Definition cube : Type := list (list (list spec_float)).

(** [item[:, f]] *)
Definition sample_axis (item : list (list spec_float)) (f : nat) : list spec_float :=
  map (fun s => nth f s (S754_zero false)) item.

(** [torch.mean(emb, dim=1)] on a rank-3 float32 tensor, the body of
    [TopKDistance._mean]. *)
Definition mean_dim1 (c : cube) : list (list spec_float) :=
  map (fun item =>
         map (fun f => mean (sample_axis item f))
             (seq 0 (length (hd [] item)))) c.

Definition regular (f : nat) (c : cube) : Prop :=
  Forall (fun item => Forall (fun sample => length sample = f) item) c.

Definition samples_permuted (c c' : cube) : Prop :=
  Forall2 (fun item item' => Permutation item item') c c'.


End Float32.

(* ================================================================== *)
(** * Facts about the Python helpers *)

Section ForEach.

Context {A B : Type}.
Variable f : A -> result B.

Lemma for_each_inr (xs : list A) :
  (forall x, In x xs -> exists y, f x = inr y) ->
  exists ys, for_each f xs = inr ys /\ Forall2 (fun x y => f x = inr y) xs ys.
Proof.
  induction xs as [|x xs IH]; intros H; simpl.
  - exists []. split; [reflexivity | constructor].
  - destruct (H x (or_introl eq_refl)) as [y Hy].
    destruct IH as [ys [Hys HF]].
    + intros z Hz. apply H. now right.
    + exists (y :: ys). rewrite Hy. simpl. rewrite Hys. simpl.
      split; [reflexivity | now constructor].
Qed.

Lemma for_each_inv (xs : list A) (ys : list B) :
  for_each f xs = inr ys -> Forall2 (fun x y => f x = inr y) xs ys.
Proof.
  revert ys. induction xs as [|x xs IH]; intros ys; simpl.
  - intros E. injection E as <-. constructor.
  - destruct (f x) as [e|y] eqn:Hx; simpl; [discriminate|].
    destruct (for_each f xs) as [e|ys'] eqn:Hxs; simpl; [discriminate|].
    intros E. injection E as <-. constructor; auto.
Qed.

End ForEach.

Lemma for_each_pure {A B} (g : A -> B) (xs : list A) :
  for_each (fun x => ret (g x)) xs = inr (map g xs).
Proof.
  induction xs as [|x xs IH]; simpl; [reflexivity|].
  rewrite IH. reflexivity.
Qed.

(* ================================================================== *)
(** * The rank extractor returns, and its ranks are within bounds *)

Section DiagRanksFacts.

Context {A : Type}.
Variable gtb : A -> A -> bool.

Lemma insert_desc_perm (x : nat * A) (l : list (nat * A)) :
  Permutation (insert_desc gtb x l) (x :: l).
Proof.
  induction l as [|y l IH]; simpl; [reflexivity|].
  destruct (gtb (snd y) (snd x)); [|reflexivity].
  rewrite IH. apply perm_swap.
Qed.

Lemma sort_desc_perm (l : list (nat * A)) : Permutation (sort_desc gtb l) l.
Proof.
  induction l as [|x l IH]; simpl; [reflexivity|].
  rewrite insert_desc_perm. now constructor.
Qed.

Lemma enumerate_fst (col : list A) : map fst (enumerate col) = seq 0 (length col).
Proof.
  unfold enumerate. generalize 0.
  induction col as [|x col IH]; intros s; simpl; [reflexivity|].
  now rewrite IH.
Qed.

Lemma enumerate_snd (col : list A) : map snd (enumerate col) = col.
Proof.
  unfold enumerate. generalize 0.
  induction col as [|x col IH]; intros s; simpl; [reflexivity|].
  now rewrite IH.
Qed.

(** The index tensor returned by the sort is a permutation of [0..n-1]. *)
Lemma sort_indices_perm (col : list A) :
  Permutation (snd (torch_sort_desc gtb col)) (seq 0 (length col)).
Proof.
  unfold torch_sort_desc. simpl.
  rewrite <- enumerate_fst. apply Permutation_map, sort_desc_perm.
Qed.

(** The sorted values are a permutation of the column. *)
Lemma sort_values_perm (col : list A) :
  Permutation (fst (torch_sort_desc gtb col)) col.
Proof.
  unfold torch_sort_desc. simpl.
  rewrite <- (enumerate_snd col) at 2. apply Permutation_map, sort_desc_perm.
Qed.

Lemma first_nonzero_In (i : nat) (v : list nat) :
  In i v -> exists p, first_nonzero i v = inr p /\ p < length v.
Proof.
  induction v as [|j v IH]; simpl; [tauto|].
  intros H. destruct (Nat.eqb j i) eqn:E.
  - exists 0. split; [reflexivity | lia].
  - apply Nat.eqb_neq in E.
    destruct H as [H|H]; [congruence|].
    destruct (IH H) as [p [Hp Hlt]].
    exists (S p). rewrite Hp. simpl. split; [reflexivity | lia].
Qed.

Lemma first_nonzero_nth (i : nat) (v : list nat) (p : nat) :
  first_nonzero i v = inr p ->
  nth_error v p = Some i /\ forall q, q < p -> nth_error v q <> Some i.
Proof.
  revert p. induction v as [|j v IH]; intros p; simpl; [discriminate|].
  destruct (Nat.eqb j i) eqn:E.
  - intros H. injection H as <-. apply Nat.eqb_eq in E. subst j.
    split; [reflexivity | intros q Hq; lia].
  - destruct (first_nonzero i v) as [e|p'] eqn:Hp; simpl; [discriminate|].
    intros H. injection H as <-.
    destruct (IH p' eq_refl) as [Hn Hfirst].
    split; [exact Hn|].
    intros [|q] Hq; simpl.
    + apply Nat.eqb_neq in E. congruence.
    + apply Hfirst. lia.
Qed.

Lemma column_inr (m : list (list A)) (i : nat) :
  Forall (fun row => i < length row) m ->
  exists col, column m i = inr col /\ length col = length m.
Proof.
  intros H. unfold column.
  induction H as [|row m Hrow Hm IH]; simpl.
  - exists []. split; reflexivity.
  - destruct (nth_error row i) as [x|] eqn:Hx.
    + destruct IH as [col [Hc Hl]]. simpl. rewrite Hc. simpl.
      exists (x :: col). split; [reflexivity | simpl; lia].
    + apply nth_error_None in Hx. lia.
Qed.

Lemma diag_rank_bounds (m : list (list A)) (i : nat) :
  i < length m ->
  Forall (fun row => i < length row) m ->
  exists r, diag_rank gtb m i = inr r /\ 1 <= r <= length m.
Proof.
  intros Hi Hrows. unfold diag_rank.
  destruct (column_inr Hrows) as [col [Hc Hl]].
  rewrite Hc. cbn [bind].
  destruct (@first_nonzero_In i (snd (torch_sort_desc gtb col))) as [p [Hp Hlt]].
  - apply Permutation_in with (l := seq 0 (length col)).
    + symmetry. apply sort_indices_perm.
    + apply in_seq. lia.
  - rewrite Hp. cbn [bind]. exists (p + 1). split; [reflexivity|].
    rewrite (Permutation_length (sort_indices_perm col)), length_seq in Hlt. lia.
Qed.

End DiagRanksFacts.

(** Totality and bounds of the rank extractor on a square matrix. *)
Lemma compute_diag_ranks_square {A} (gtb : A -> A -> bool)
    (n : nat) (m : list (list A)) :
  square n m ->
  exists ranks,
    _compute_diag_ranks gtb m = inr ranks /\
    length ranks = n /\
    Forall (fun r => 1 <= r <= n) ranks.
Proof.
  intros [Hn Hrows]. unfold _compute_diag_ranks.
  destruct (@for_each_inr _ _ (diag_rank gtb m) (seq 0 (length m))) as [ranks [Hr HF]].
  - intros i Hi. apply in_seq in Hi.
    destruct (@diag_rank_bounds _ gtb m i) as [r [Hr _]]; [lia | | eauto].
    eapply Forall_impl; [|exact Hrows]. simpl. intros row Hrow. lia.
  - exists ranks. split; [exact Hr|]. split.
    + apply Forall2_length in HF. rewrite length_seq in HF. lia.
    + assert (Hin : Forall (fun i => i < length m) (seq 0 (length m))).
      { apply Forall_forall. intros i Hi. apply in_seq in Hi. lia. }
      clear Hr. induction HF as [|i r idxs rs Hir HF IH]; constructor.
      * inversion Hin; subst.
        destruct (@diag_rank_bounds _ gtb m i) as [r' [Hr' Hb]]; [lia | | ].
        -- eapply Forall_impl; [|exact Hrows]. simpl. intros row Hrow. lia.
        -- rewrite Hir in Hr'. injection Hr' as <-. lia.
      * apply IH. now inversion Hin.
Qed.

(** C6: for every N x N matrix the rank extractor returns a vector of N
    ranks, and every rank lies between 1 and N inclusive.  This holds for any
    comparison used by the sort, so it does not depend on how ties or NaN are
    ordered. *)
Theorem compute_diag_ranks_bounds {A} (gtb : A -> A -> bool)
    (n : nat) (m : list (list A)) :
  square n m ->
  exists ranks,
    _compute_diag_ranks gtb m = inr ranks /\
    length ranks = n /\
    Forall (fun r => 1 <= r <= n) ranks.
Proof.
  apply compute_diag_ranks_square.
Qed.


(* ================================================================== *)
(** * The score report *)

Section DictFacts.

Context {V : Type}.

Lemma dict_get_set_eq (d : dict V) (k : string) (v : V) :
  dict_get (dict_set d k v) k = Some v.
Proof.
  induction d as [|[k' v'] d IH]; simpl.
  - now rewrite String.eqb_refl.
  - destruct (String.eqb k' k) eqn:E; simpl.
    + now rewrite String.eqb_refl.
    + now rewrite E.
Qed.

Lemma dict_get_set_neq (d : dict V) (k k' : string) (v : V) :
  k <> k' -> dict_get (dict_set d k v) k' = dict_get d k'.
Proof.
  intros Hne. induction d as [|[k0 v0] d IH]; simpl.
  - apply String.eqb_neq in Hne. now rewrite Hne.
  - destruct (String.eqb k0 k) eqn:E; simpl.
    + apply String.eqb_eq in E. subst k0.
      apply String.eqb_neq in Hne. now rewrite Hne.
    + destruct (String.eqb k0 k'); [reflexivity | exact IH].
Qed.

Lemma dict_mem_keys (d : dict V) (k : string) :
  dict_mem d k = true <-> In k (dict_keys d).
Proof.
  unfold dict_mem, dict_keys.
  induction d as [|[k' v'] d IH]; simpl.
  - split; [discriminate | tauto].
  - destruct (String.eqb k' k) eqn:E.
    + apply String.eqb_eq in E. tauto.
    + apply String.eqb_neq in E. rewrite IH. tauto.
Qed.

End DictFacts.

Lemma to_int_not_nil (z : Z) :
  Z.to_int z <> Decimal.Pos Decimal.Nil /\ Z.to_int z <> Decimal.Neg Decimal.Nil.
Proof.
  pose proof (DecimalZ.to_of (Z.to_int z)) as H.
  rewrite DecimalZ.of_to in H.
  split; intros E; rewrite E in H; discriminate H.
Qed.

Lemma str_int_inj (k k' : Z) : str_int k = str_int k' -> k = k'.
Proof.
  unfold str_int. intros H.
  apply DecimalZ.to_int_inj.
  destruct (to_int_not_nil k) as [Hp Hn].
  destruct (to_int_not_nil k') as [Hp' Hn'].
  pose proof (NilZero.isi _ Hp Hn) as E.
  pose proof (NilZero.isi _ Hp' Hn') as E'.
  rewrite H in E. rewrite E in E'. now injection E'.
Qed.

Lemma top_key_inj (k k' : Z) : top_key k = top_key k' -> k = k'.
Proof.
  unfold top_key. simpl. intros H. injection H as H. now apply str_int_inj.
Qed.

Section TopLoop.

(** The loop [for k in k_range: dict_score['top'+str(k)] = g k]. *)
Variable g : Z -> Q.

Let step (d : dict Q) (k : Z) : dict Q := dict_set d (top_key k) (g k).

Lemma top_loop_other (ks : list Z) (d : dict Q) (key : string) :
  (forall k, In k ks -> top_key k <> key) ->
  dict_get (fold_left step ks d) key = dict_get d key.
Proof.
  revert d. induction ks as [|a ks IH]; intros d H; simpl; [reflexivity|].
  rewrite IH.
  - unfold step. apply dict_get_set_neq. apply H. now left.
  - intros k Hk. apply H. now right.
Qed.

Lemma top_loop_get (ks : list Z) (d : dict Q) (k : Z) :
  In k ks -> dict_get (fold_left step ks d) (top_key k) = Some (g k).
Proof.
  revert d. induction ks as [|a ks IH]; intros d H; simpl; [contradiction|].
  destruct (in_dec Z.eq_dec k ks) as [Hin|Hnot].
  - now apply IH.
  - destruct H as [->|H]; [|contradiction].
    rewrite top_loop_other.
    + apply dict_get_set_eq.
    + intros k' Hk' E. apply top_key_inj in E. congruence.
Qed.

End TopLoop.

Lemma report_top (ranks : list nat) (n : nat) (ks : list Z) (k : Z) :
  In k ks ->
  dict_get (score_report ranks n ks) (top_key k) = Some (top_score ranks n k).
Proof.
  intros H. unfold score_report.
  rewrite dict_get_set_neq by (unfold top_key; simpl; discriminate).
  rewrite dict_get_set_neq by (unfold top_key; simpl; discriminate).
  now apply (top_loop_get (fun k => top_score ranks n k)).
Qed.

Lemma report_mean_ranks (ranks : list nat) (n : nat) (ks : list Z) :
  dict_get (score_report ranks n ks) "mean_ranks"
  = Some (mean_of_ranks ranks / Qnat n * 100)%Q.
Proof.
  unfold score_report.
  rewrite dict_get_set_neq by discriminate.
  apply dict_get_set_eq.
Qed.

Lemma report_exact_matching (ranks : list nat) (n : nat) (ks : list Z) :
  dict_get (score_report ranks n ks) "exact_matching"
  = Some (Qnat (sum_bool (map (fun r => Nat.eqb r 0) ranks)) / Qnat n * 100)%Q.
Proof.
  unfold score_report. apply dict_get_set_eq.
Qed.

Lemma sum_bool_filter {A} (f : A -> bool) (l : list A) :
  sum_bool (map f l) = length (filter f l).
Proof.
  induction l as [|x l IH]; simpl; [reflexivity|].
  destruct (f x); simpl; now rewrite IH.
Qed.

Lemma sum_bool_all_false {A} (f : A -> bool) (l : list A) :
  Forall (fun x => f x = false) l -> sum_bool (map f l) = 0.
Proof.
  induction 1 as [|x l Hx Hl IH]; simpl; [reflexivity|].
  now rewrite Hx, IH.
Qed.

Lemma sum_bool_all_true {A} (f : A -> bool) (l : list A) :
  Forall (fun x => f x = true) l -> sum_bool (map f l) = length l.
Proof.
  induction 1 as [|x l Hx Hl IH]; simpl; [reflexivity|].
  now rewrite Hx, IH.
Qed.

Lemma sum_bool_mono {A} (f g : A -> bool) (l : list A) :
  (forall x, f x = true -> g x = true) ->
  sum_bool (map f l) <= sum_bool (map g l).
Proof.
  intros H. induction l as [|x l IH]; simpl; [lia|].
  specialize (H x). destruct (f x), (g x); simpl; try lia.
Qed.

(** Comparing an integer rank with a rational threshold. *)
Lemma rank_le_threshold (r : nat) (t : Q) :
  Qle_bool (Qnat r) t = true <-> (Z.of_nat r * Z.pos (Qden t) <= Qnum t)%Z.
Proof.
  unfold Qle_bool, Qnat. simpl. rewrite Z.leb_le. lia.
Qed.

(** C4: the value reported under ['top'+str(K)] is the number of items whose
    rank is at most [N * (K / 100)], divided by [N], times 100.  The
    threshold is compared as a fraction: with N = 10, the percentages 25 and
    29 give the thresholds 2.5 and 2.9, which admit the same ranks (those up
    to 2), and 30 gives 3, which admits rank 3 too. *)
Theorem top_score_counts_ranks_within_threshold
    (ranks : list nat) (k_range : list Z) (k : Z) :
  In k k_range ->
  dict_get (score_report ranks (length ranks) k_range) (top_key k)
    = Some (spec_top_score ranks k)
  /\ (number_values 10 25 == 5 # 2)%Q
  /\ (number_values 10 29 == 29 # 10)%Q
  /\ (number_values 10 30 == 3)%Q
  /\ (forall rs, le_threshold (number_values 10 25) rs = map (fun r => r <=? 2) rs)
  /\ (forall rs, le_threshold (number_values 10 29) rs = map (fun r => r <=? 2) rs)
  /\ (forall rs, le_threshold (number_values 10 30) rs = map (fun r => r <=? 3) rs).
Proof.
  intros Hk. split.
  - rewrite (report_top _ _ _ _ Hk). f_equal.
    unfold top_score, spec_top_score, spec_count, le_threshold, number_values.
    now rewrite sum_bool_filter.
  - repeat split; try reflexivity; intros rs; unfold le_threshold;
      apply map_ext; intros r; apply eq_true_iff_eq;
      rewrite rank_le_threshold, Nat.leb_le;
      unfold number_values, Qnat; simpl; lia.
Qed.

Lemma Qnat_le (a b : nat) : a <= b -> (Qnat a <= Qnat b)%Q.
Proof.
  intros H. unfold Qnat. rewrite <- Zle_Qle. lia.
Qed.

Lemma Qnat_nonneg (a : nat) : (0 <= Qnat a)%Q.
Proof.
  apply (Qnat_le (a := 0)). lia.
Qed.

Lemma percent_mono (a b n : nat) :
  a <= b -> (Qnat a / Qnat n * 100 <= Qnat b / Qnat n * 100)%Q.
Proof.
  intros H.
  apply Qmult_le_compat_r; [|discriminate].
  apply Qmult_le_compat_r; [now apply Qnat_le|].
  apply Qinv_le_0_compat, Qnat_nonneg.
Qed.

Lemma number_values_mono (n : nat) (k1 k2 : Z) :
  (k1 <= k2)%Z -> (number_values n k1 <= number_values n k2)%Q.
Proof.
  intros H. unfold number_values.
  rewrite (Qmult_comm (Qnat n)), (Qmult_comm (Qnat n) (inject_Z k2 / 100)).
  apply Qmult_le_compat_r; [|apply Qnat_nonneg].
  apply Qmult_le_compat_r; [|discriminate].
  now rewrite <- Zle_Qle.
Qed.

Lemma top_score_mono (ranks : list nat) (n : nat) (k1 k2 : Z) :
  (k1 <= k2)%Z -> (top_score ranks n k1 <= top_score ranks n k2)%Q.
Proof.
  intros H. unfold top_score, le_threshold.
  apply percent_mono, sum_bool_mono.
  intros r Hr. apply Qle_bool_iff in Hr. apply Qle_bool_iff.
  eapply Qle_trans; [exact Hr | now apply number_values_mono].
Qed.

(** C7: for a fixed non-empty rank vector and two requested percentages
    K1 <= K2, the score reported under top{K1} is at most the score reported
    under top{K2}. *)
Theorem top_scores_monotone_in_k
    (ranks : list nat) (k_range : list Z) (k1 k2 : Z) :
  ranks <> [] ->
  In k1 k_range -> In k2 k_range ->
  (k1 <= k2)%Z ->
  exists v1 v2,
    dict_get (score_report ranks (length ranks) k_range) (top_key k1) = Some v1 /\
    dict_get (score_report ranks (length ranks) k_range) (top_key k2) = Some v2 /\
    (v1 <= v2)%Q.
Proof.
  intros _ H1 H2 Hle.
  exists (top_score ranks (length ranks) k1), (top_score ranks (length ranks) k2).
  repeat split; try now apply report_top.
  now apply top_score_mono.
Qed.

(** Ranks start at 1, so the test [ranks == 0] selects nothing and the
    reported exact-matching score is 0 whatever the ranks are. *)
Lemma exact_matching_zero (ranks : list nat) (n : nat) (ks : list Z) :
  Forall (fun r => 1 <= r) ranks ->
  exists v, dict_get (score_report ranks n ks) "exact_matching" = Some v /\ (v == 0)%Q.
Proof.
  intros H. rewrite report_exact_matching. eexists. split; [reflexivity|].
  rewrite sum_bool_all_false.
  - unfold Qnat. simpl. unfold Qdiv. ring.
  - eapply Forall_impl; [|exact H]. simpl. intros r Hr.
    apply Nat.eqb_neq. lia.
Qed.

(** With K = 100 every rank of an N-vector is within the threshold N. *)
Lemma top_score_100 (ranks : list nat) :
  ranks <> [] ->
  Forall (fun r => r <= length ranks) ranks ->
  (top_score ranks (length ranks) 100 == 100)%Q.
Proof.
  intros Hne H. unfold top_score, le_threshold.
  rewrite sum_bool_all_true.
  - assert (Hn : ~ (Qnat (length ranks) == 0)%Q).
    { unfold Qnat, Qeq. simpl. destruct ranks; [congruence | simpl; lia]. }
    field. exact Hn.
  - eapply Forall_impl; [|exact H]. simpl. intros r Hr.
    apply rank_le_threshold. unfold number_values, Qnat. simpl. lia.
Qed.

(** A threshold below 1 admits no rank. *)
Lemma top_score_below_one (ranks : list nat) (n : nat) (k : Z) :
  Forall (fun r => 1 <= r) ranks ->
  (number_values n k < 1)%Q ->
  (top_score ranks n k == 0)%Q.
Proof.
  intros H Hlt. unfold top_score, le_threshold.
  rewrite sum_bool_all_false.
  - unfold Qnat. simpl. unfold Qdiv. ring.
  - eapply Forall_impl; [|exact H]. simpl. intros r Hr.
    destruct (Qle_bool (Qnat r) (number_values n k)) eqn:E; [|reflexivity].
    apply Qle_bool_iff in E. exfalso.
    apply (Qlt_irrefl 1). eapply Qle_lt_trans; [|exact Hlt].
    eapply Qle_trans; [|exact E].
    apply (Qnat_le (a := 1)). lia.
Qed.

(* ================================================================== *)
(** * Validation at call entry *)

Lemma methods_keys : dict_keys _methods = supported_methods.
Proof. reflexivity. Qed.

Lemma aggregs_keys : dict_keys _aggregs = supported_aggregations.
Proof. reflexivity. Qed.

Lemma method_known (m : string) :
  dict_mem _methods m = true <-> In m supported_methods.
Proof. rewrite dict_mem_keys, methods_keys. reflexivity. Qed.

Lemma aggregate_known (a : string) :
  dict_mem _aggregs a = true <-> In a supported_aggregations.
Proof. rewrite dict_mem_keys, aggregs_keys. reflexivity. Qed.

Lemma not_true_false (b : bool) : b <> true -> b = false.
Proof. destruct b; congruence. Qed.

Lemma in_2_3_spec (n : nat) : in_2_3 n = true <-> n = 2 \/ n = 3.
Proof.
  unfold in_2_3. simpl. rewrite !orb_true_iff, !Nat.eqb_eq.
  intuition discriminate.
Qed.

(** C5: a method name outside the six supported ones, or an aggregation name
    outside the three supported ones, makes the call raise a [ValueError]
    whose message starts with the offending name and lists the valid ones;
    with a valid configuration, an input whose rank is neither 2 nor 3 makes
    it raise a [ValueError] naming the argument and its rank.  The outcome is
    the same whatever the tensors hold, so nothing is computed before the
    error, and no default is substituted. *)
Theorem call_rejects_invalid_configuration_and_shape
    (self : TopKDistance) (arr1 arr2 : Tensor) (k_range : list Z) :
  (~ In (method self) supported_methods ->
   __call__ self arr1 arr2 k_range
   = inl (ValueError
            (method self
             ++ " not in list of defined methods. Please choose from "
             ++ "['euclidean', 'cosine', 'correlation', 'chebyshev', 'minkowski', 'cityblock']")))
  /\
  (In (method self) supported_methods ->
   ~ In (aggregate self) supported_aggregations ->
   __call__ self arr1 arr2 k_range
   = inl (ValueError
            (aggregate self
             ++ " not in list of defined aggregations. Please choose from "
             ++ "['mean', 'median', 'robust_mean']")))
  /\
  (In (method self) supported_methods ->
   In (aggregate self) supported_aggregations ->
   ndim arr1 <> 2 -> ndim arr1 <> 3 ->
   __call__ self arr1 arr2 k_range
   = inl (ValueError
            ("arr1 should be a 2D or 3D tensor, but got "
             ++ str_nat (ndim arr1) ++ "D tensor")))
  /\
  (In (method self) supported_methods ->
   In (aggregate self) supported_aggregations ->
   ndim arr1 = 2 \/ ndim arr1 = 3 ->
   ndim arr2 <> 2 -> ndim arr2 <> 3 ->
   __call__ self arr1 arr2 k_range
   = inl (ValueError
            ("arr2 should be a 2D or 3D tensor, but got "
             ++ str_nat (ndim arr2) ++ "D tensor"))).
Proof.
  unfold __call__.
  repeat split.
  - intros Hm. rewrite <- method_known in Hm.
    apply not_true_false in Hm. rewrite Hm. reflexivity.
  - intros Hm Ha. apply method_known in Hm. rewrite <- aggregate_known in Ha.
    apply not_true_false in Ha. rewrite Hm, Ha. reflexivity.
  - intros Hm Ha H2 H3. apply method_known in Hm. apply aggregate_known in Ha.
    rewrite Hm, Ha.
    assert (E : in_2_3 (ndim arr1) = false).
    { apply not_true_false. rewrite in_2_3_spec. tauto. }
    rewrite E. reflexivity.
  - intros Hm Ha H1 H2 H3. apply method_known in Hm. apply aggregate_known in Ha.
    rewrite Hm, Ha.
    apply in_2_3_spec in H1. rewrite H1.
    assert (E : in_2_3 (ndim arr2) = false).
    { apply not_true_false. rewrite in_2_3_spec. tauto. }
    rewrite E. reflexivity.
Qed.

(** ** The call on two rank-2 inputs with a valid configuration *)

Lemma call_rank2 (self : TopKDistance) (m1 m2 : matrix) (k_range : list Z)
    (dist : matrix -> matrix -> list (list xreal)) :
  dict_get _methods (method self) = Some dist ->
  In (aggregate self) supported_aggregations ->
  __call__ self (tensor2 m1) (tensor2 m2) k_range
  = bind (_compute_diag_ranks xgtb (dist m1 m2))
         (fun ranks => ret (score_report ranks (length (dist m1 m2)) k_range)).
Proof.
  intros Hd Ha. apply aggregate_known in Ha.
  unfold __call__, getitem. unfold dict_mem at 1.
  rewrite Hd, Ha. reflexivity.
Qed.

(* ================================================================== *)
(** * Real-number facts used to evaluate the model on concrete inputs *)

Section RealFacts.

Local Open Scope R_scope.

Lemma Rgtb_spec (a b : R) : reflect (a > b) (Rgtb a b).
Proof. unfold Rgtb. destruct (Rgt_dec a b); constructor; assumption. Qed.


Lemma Reqb_spec (a b : R) : reflect (a = b) (Reqb a b).
Proof. unfold Reqb. destruct (Req_dec_T a b); constructor; assumption. Qed.

Lemma sum_squares_nonneg (v : list R) : 0 <= sum (map (fun x => x * x) v).
Proof.
  induction v as [|x v IH]; simpl; [lra | nra].
Qed.

Lemma sum_zeros {A} (a : list A) : sum (map (fun _ => 0) a) = 0.
Proof.
  induction a as [|x a IH]; simpl; [reflexivity|]. rewrite IH. ring.
Qed.

Lemma squares_sub_self (a : list R) :
  map (fun x => x * x) (sub a a) = map (fun _ => 0) a.
Proof.
  unfold sub. induction a as [|x a IH]; simpl; [reflexivity|].
  rewrite IH. f_equal. ring.
Qed.

(** The euclidean distance of a vector to itself is 0. *)
Lemma norm2_sub_self (a : list R) : norm2 (sub a a) = 0.
Proof.
  unfold norm2. rewrite squares_sub_self, sum_zeros. apply sqrt_0.
Qed.

Lemma norm2_pos (v : list R) : 0 < sum (map (fun x => x * x) v) -> 0 < norm2 v.
Proof.
  intros H. unfold norm2. now apply sqrt_lt_R0.
Qed.

End RealFacts.

(** Decide the comparisons of a concrete sort, one at a time. *)
Ltac case_Rgtb :=
  match goal with
  | |- context [Rgtb ?a ?b] =>
      destruct (Rgtb_spec a b); try (exfalso; lra); cbn -[Rgtb]
  end.

(** Replace every euclidean distance of the goal by 0 (a vector against
    itself) or by an unknown positive number. *)
Ltac norm2_facts :=
  rewrite ?norm2_sub_self;
  repeat match goal with
  | |- context [norm2 ?v] =>
      let H := fresh "Hpos" in
      assert (H : (0 < norm2 v)%R) by (apply norm2_pos; cbn; lra);
      generalize dependent (norm2 v); intros
  end.

Lemma pairwise_square {B} (f : list R -> list R -> B) (X : matrix) :
  square (length X) (pairwise f X X).
Proof.
  unfold square, pairwise. split.
  - apply length_map.
  - apply Forall_forall. intros row Hrow.
    apply in_map_iff in Hrow. destruct Hrow as [a [<- _]]. apply length_map.
Qed.

(* ================================================================== *)
(** * The rank extractor on a distance matrix *)

Section RankDirection.

Local Open Scope R_scope.

(** C1: on the distance matrix of two items that are each closest to their
    own match, the rank extractor sorts each column in descending order
    and returns rank 2 for both items; sorting ascending, as the claim has
    it, returns rank 1 for both. *)
Theorem compute_diag_ranks_sorts_descending :
  _compute_diag_ranks xgtb two_matched_items = inr [2; 2]%nat /\
  spec_compute_diag_ranks two_matched_items = inr [1; 1]%nat /\
  fst (torch_sort_desc xgtb [Finite 0; Finite 1]) = [Finite 1; Finite 0].
Proof.
  unfold spec_compute_diag_ranks, xltb, two_matched_items.
  repeat split; cbn -[Rgtb]; repeat case_Rgtb; reflexivity.
Qed.

End RankDirection.

(* ================================================================== *)
(** * Exact matching *)

Section ExactMatching.

Local Open Scope R_scope.

Lemma crossed_ranks :
  _compute_diag_ranks xgtb (_euclidean crossed_a crossed_b) = inr [1; 1]%nat.
Proof.
  unfold _compute_diag_ranks, crossed_a, crossed_b, _euclidean, pairwise.
  cbn -[norm2 sub Rgtb].
  norm2_facts. repeat case_Rgtb. reflexivity.
Qed.

(** C2: on two collections for which both items get rank 1, the call
    reports an exact-matching score of 0, because it counts the ranks equal
    to 0; the share of ranks equal to 1 is 100 percent. *)
Theorem exact_matching_counts_rank_zero :
  exists d,
    __call__ default (tensor2 crossed_a) (tensor2 crossed_b) [1; 5; 10]%Z = inr d /\
    _compute_diag_ranks xgtb (_euclidean crossed_a crossed_b) = inr [1; 1]%nat /\
    (exists v, dict_get d "exact_matching" = Some v /\ (v == 0)%Q) /\
    (spec_exact_matching [1; 1]%nat == 100)%Q.
Proof.
  eexists. split; [|split; [exact crossed_ranks | split]].
  - rewrite (@call_rank2 default _ _ _ _euclidean);
      [ | reflexivity | simpl; tauto ].
    rewrite crossed_ranks. reflexivity.
  - apply exact_matching_zero. repeat constructor.
  - reflexivity.
Qed.

End ExactMatching.

(* ================================================================== *)
(** * A collection compared against itself under the euclidean metric *)

Section Identity.

Local Open Scope R_scope.

Lemma example_rank (i : nat) :
  (i < 3)%nat ->
  diag_rank xgtb (_euclidean example_collection example_collection) i = inr 3%nat.
Proof.
  intros Hi.
  assert (Hcases : i = 0%nat \/ i = 1%nat \/ i = 2%nat) by lia.
  destruct Hcases as [-> | [-> | ->]];
    unfold example_collection, _euclidean, pairwise, diag_rank;
    cbn -[norm2 sub Rgtb]; norm2_facts; repeat case_Rgtb; reflexivity.
Qed.

Lemma example_ranks :
  _compute_diag_ranks xgtb (_euclidean example_collection example_collection)
  = inr [3; 3; 3]%nat.
Proof.
  unfold _compute_diag_ranks.
  change (length (_euclidean example_collection example_collection)) with 3%nat.
  cbn [seq for_each].
  rewrite !example_rank by lia. reflexivity.
Qed.

(** C3: in the scenario of the claim, which is also the example of the
    docstring of [__call__], the 3 x 3 collection compared against itself
    under the euclidean metric with k_range = [1, 5, 10], every item gets
    rank 3, no rank is within the thresholds 0.03, 0.15 and 0.3, and the
    call returns top1 = top5 = top10 = 0, mean_ranks = 100 and
    exact_matching = 0, where the claim and the docstring have 100, 100,
    100, 33.3 and 100. *)
Lemma identity_scenario_counterexample :
  let d := [ ("top1", 0 # 3); ("top5", 0 # 3); ("top10", 0 # 3);
             ("mean_ranks", 900 # 9); ("exact_matching", 0 # 3) ]%string in
  __call__ default (tensor2 example_collection) (tensor2 example_collection)
           [1; 5; 10]%Z = inr d
  /\ dict_get d "top1" = Some (0 # 3) /\ ~ (0 # 3 == 100)%Q
  /\ dict_get d "exact_matching" = Some (0 # 3)
  /\ dict_get d "mean_ranks" = Some (900 # 9) /\ ~ (900 # 9 == 100 # 3)%Q.
Proof.
  intros d. repeat split; try reflexivity; try (intros H; discriminate H).
  rewrite (@call_rank2 default _ _ _ _euclidean);
    [ | reflexivity | simpl; tauto ].
  rewrite example_ranks. reflexivity.
Qed.

End Identity.

Lemma Forall_and_split {A} (P Q : A -> Prop) (l : list A) :
  Forall (fun x => P x /\ Q x) l -> Forall P l /\ Forall Q l.
Proof.
  induction 1 as [|x l [Hp Hq] _ [IHp IHq]]; split; constructor; assumption.
Qed.


(* ================================================================== *)
(** * The aggregator *)

Section AggregatorFacts.

Local Open Scope R_scope.


(** ** Reordering the samples *)









End AggregatorFacts.


(* ================================================================== *)
(** * Zero-norm vectors in the cosine and correlation metrics *)

Section ZeroNorm.

Local Open Scope R_scope.

Ltac case_Reqb :=
  match goal with
  | |- context [Reqb ?a ?b] =>
      destruct (Reqb_spec a b); try (exfalso; lra); cbn -[Reqb Rgtb norm2]
  end.

Lemma dot_zero_l (u v : list R) : Forall (fun x => x = 0) u -> dot u v = 0.
Proof.
  intros H. revert v. unfold dot.
  induction H as [|x u Hx _ IH]; intros v; [reflexivity|].
  destruct v as [|y v]; [reflexivity|].
  cbn [combine map sum fold_right fst snd].
  fold (sum (map (fun p => fst p * snd p) (combine u v))).
  rewrite IH, Hx. ring.
Qed.

(** The cosine path is guarded by the clamp inside [cosine_similarity]: a
    zero vector is at distance 1 from every vector. *)
Lemma cosine_zero_vector (u v : list R) :
  Forall (fun x => x = 0) u ->
  _cosine [u] [v] = [[Finite 1]].
Proof.
  intros H. unfold _cosine, pairwise, cosine_similarity. simpl.
  rewrite (dot_zero_l v H). do 3 f_equal. unfold Rdiv. ring.
Qed.

(** C10: under the correlation metric a constant vector has norm 0 after
    centring, and the two unguarded divisions turn every entry of its
    column into NaN; under the cosine metric a zero vector gets the
    distance 1. *)
Theorem correlation_constant_vector_yields_nan :
  (exists a b,
     _correlation constant_first_row constant_first_row
     = [[NaN; Finite a]; [NaN; Finite b]]) /\
  (forall v, _cosine [[0; 0]] [v] = [[Finite 1]]).
Proof.
  split.
  - unfold _correlation, constant_first_row, center, div_last_axis, pairwise, mean.
    cbn -[norm2 Reqb Rgtb].
    assert (H0 : norm2 [1 - (1 + (1 + 0)) / (1 + 1); 1 - (1 + (1 + 0)) / (1 + 1)] = 0).
    { unfold norm2. cbn.
      replace (1 - (1 + (1 + 0)) / (1 + 1)) with 0 by field.
      replace (0 * 0 + (0 * 0 + 0)) with 0 by ring. apply sqrt_0. }
    rewrite H0.
    assert (H1 : 0 < norm2 [1 - (1 + (2 + 0)) / (1 + 1); 2 - (1 + (2 + 0)) / (1 + 1)]).
    { apply norm2_pos. cbn.
      replace ((1 + (2 + 0)) / (1 + 1)) with (3 / 2) by field. lra. }
    generalize dependent (norm2 [1 - (1 + (2 + 0)) / (1 + 1);
                                 2 - (1 + (2 + 0)) / (1 + 1)]).
    intros r Hr.
    repeat case_Reqb.
    eexists. eexists. reflexivity.
  - intros v. apply cosine_zero_vector. repeat constructor.
Qed.

End ZeroNorm.

(* ================================================================== *)
(** * Where the sort puts a diagonal entry that dominates its column *)

Section Extremes.

Context {A : Type}.
Variable gtb : A -> A -> bool.

Lemma enumerate_nth (col : list A) (s j : nat) (w : A) :
  In (j, w) (combine (seq s (length col)) col) ->
  s <= j /\ nth_error col (j - s) = Some w.
Proof.
  revert s. induction col as [|x col IH]; intros s; simpl; [tauto|].
  intros [E|H].
  - injection E as <- <-. rewrite Nat.sub_diag. split; [lia | reflexivity].
  - destruct (IH _ H) as [Hle Hn]. split; [lia|].
    replace (j - s) with (S (j - S s)) by lia. exact Hn.
Qed.

Lemma enumerate_In (col : list A) (s i : nat) (v : A) :
  nth_error col i = Some v ->
  In (s + i, v) (combine (seq s (length col)) col).
Proof.
  revert s i. induction col as [|x col IH]; intros s i; simpl.
  - destruct i; discriminate.
  - destruct i as [|i]; simpl.
    + intros E. injection E as <-. left. f_equal. lia.
    + intros H. right. replace (s + S i) with (S s + i) by lia. now apply IH.
Qed.

(** The column splits around its diagonal entry. *)
Lemma enumerate_split (col : list A) (i : nat) (v : A) :
  nth_error col i = Some v ->
  exists l1 l2,
    enumerate col = l1 ++ (i, v) :: l2 /\
    forall j w, In (j, w) (l1 ++ l2) -> j <> i /\ nth_error col j = Some w.
Proof.
  intros Hv.
  pose proof (enumerate_In col 0 i Hv) as Hin. simpl in Hin.
  fold (enumerate col) in Hin.
  destruct (in_split _ _ Hin) as [l1 [l2 E]].
  exists l1, l2. split; [exact E|].
  intros j w Hjw.
  assert (Hnd : NoDup (map fst (enumerate col))).
  { rewrite enumerate_fst. apply seq_NoDup. }
  rewrite E, map_app in Hnd. simpl in Hnd.
  apply NoDup_remove_2 in Hnd.
  split.
  - intros ->. apply Hnd. rewrite <- map_app.
    change i with (fst (i, w)). now apply in_map.
  - assert (Hin' : In (j, w) (enumerate col)).
    { rewrite E. apply in_app_or in Hjw. apply in_or_app.
      destruct Hjw; [now left | right; now right]. }
    apply enumerate_nth in Hin'. rewrite Nat.sub_0_r in Hin'. tauto.
Qed.

Variables (i : nat) (v : A).

(** ** The smallest entry is sorted last *)

Lemma insert_smallest (s : list (nat * A)) :
  Forall (above gtb v) s -> insert_desc gtb (i, v) s = s ++ [(i, v)].
Proof.
  induction 1 as [|y s [Hy _] _ IH]; simpl; [reflexivity|].
  now rewrite Hy, IH.
Qed.

Lemma insert_before_smallest (a : nat * A) (s : list (nat * A)) :
  above gtb v a ->
  insert_desc gtb a (s ++ [(i, v)]) = insert_desc gtb a s ++ [(i, v)].
Proof.
  intros [_ Ha]. induction s as [|y s IH]; simpl.
  - now rewrite Ha.
  - destruct (gtb (snd y) (snd a)); [now rewrite IH | reflexivity].
Qed.

Lemma sort_smallest_last (l1 l2 : list (nat * A)) :
  Forall (above gtb v) (l1 ++ l2) ->
  exists l', sort_desc gtb (l1 ++ (i, v) :: l2) = l' ++ [(i, v)] /\
             Permutation l' (l1 ++ l2).
Proof.
  induction l1 as [|a l1 IH]; simpl; intros H.
  - exists (sort_desc gtb l2). split; [|apply sort_desc_perm].
    apply insert_smallest.
    apply Forall_forall. intros y Hy. rewrite Forall_forall in H. apply H.
    apply Permutation_in with (l := sort_desc gtb l2);
      [apply sort_desc_perm | exact Hy].
  - inversion H as [|? ? Ha Hrest]; subst.
    destruct (IH Hrest) as [l' [E P]].
    exists (insert_desc gtb a l'). split.
    + fold (sort_desc gtb (l1 ++ (i, v) :: l2)). rewrite E.
      now apply insert_before_smallest.
    + rewrite insert_desc_perm. now constructor.
Qed.

Lemma first_nonzero_last (l : list nat) :
  ~ In i l -> first_nonzero i (l ++ [i]) = inr (length l).
Proof.
  induction l as [|j l IH]; simpl; intros H.
  - now rewrite Nat.eqb_refl.
  - destruct (Nat.eqb j i) eqn:E.
    + apply Nat.eqb_eq in E. tauto.
    + rewrite IH by tauto. reflexivity.
Qed.

(** ** The largest entry is sorted first *)

Lemma sort_largest_first (l1 l2 : list (nat * A)) :
  Forall (below gtb v) (l1 ++ l2) ->
  exists l', sort_desc gtb (l1 ++ (i, v) :: l2) = (i, v) :: l'.
Proof.
  induction l1 as [|a l1 IH]; simpl; intros H.
  - destruct (sort_desc gtb l2) as [|y s] eqn:E; simpl; [now exists []|].
    assert (Hy : below gtb v y).
    { rewrite Forall_forall in H. apply H.
      apply Permutation_in with (l := sort_desc gtb l2);
        [apply sort_desc_perm | rewrite E; now left]. }
    destruct Hy as [Hy _]. rewrite Hy. now exists (y :: s).
  - inversion H as [|? ? [_ Ha] Hrest]; subst.
    destruct (IH Hrest) as [l' E].
    fold (sort_desc gtb (l1 ++ (i, v) :: l2)). rewrite E. simpl.
    rewrite Ha. now exists (insert_desc gtb a l').
Qed.

(** ** The two extremes of [diag_rank] *)

Variable m : list (list A).
Variable col : list A.
Hypothesis Hcol : column m i = inr col.
Hypothesis Hdiag : nth_error col i = Some v.

Lemma diag_rank_of_smallest :
  (forall j w, j <> i -> nth_error col j = Some w ->
               gtb w v = true /\ gtb v w = false) ->
  diag_rank gtb m i = inr (length col).
Proof.
  intros H. unfold diag_rank, torch_sort_desc. rewrite Hcol. cbn [bind snd].
  destruct (enumerate_split col i Hdiag) as [l1 [l2 [E Hothers]]].
  destruct (@sort_smallest_last l1 l2) as [l' [Es P]].
  { apply Forall_forall. intros [j w] Hjw.
    destruct (Hothers j w Hjw) as [Hne Hn]. exact (H j w Hne Hn). }
  rewrite E, Es, map_app. simpl.
  rewrite first_nonzero_last.
  - cbn [bind]. unfold ret. f_equal.
    rewrite length_map, (Permutation_length P).
    rewrite <- (enumerate_snd col), length_map, E, !length_app. simpl. lia.
  - intros Hin. apply in_map_iff in Hin. destruct Hin as [[j w] [Hj Hjw]].
    simpl in Hj. subst j.
    apply (Permutation_in _ P) in Hjw.
    destruct (Hothers i w Hjw) as [Hne _]. congruence.
Qed.

Lemma diag_rank_of_largest :
  (forall j w, j <> i -> nth_error col j = Some w ->
               gtb w v = false /\ gtb v w = true) ->
  diag_rank gtb m i = inr 1.
Proof.
  intros H. unfold diag_rank, torch_sort_desc. rewrite Hcol. cbn [bind snd].
  destruct (enumerate_split col i Hdiag) as [l1 [l2 [E Hothers]]].
  destruct (@sort_largest_first l1 l2) as [l' Es].
  { apply Forall_forall. intros [j w] Hjw.
    destruct (Hothers j w Hjw) as [Hne Hn]. exact (H j w Hne Hn). }
  rewrite E, Es. simpl. now rewrite Nat.eqb_refl.
Qed.

End Extremes.

Lemma xgtb_asym (x y : xreal) : xgtb x y = true -> xgtb y x = false.
Proof.
  destruct x as [a| | |], y as [b| | |]; simpl; try reflexivity; try discriminate.
  destruct (Rgtb_spec a b), (Rgtb_spec b a); try reflexivity; try discriminate.
  exfalso. lra.
Qed.

(** On any column whose diagonal entry is strictly below every other entry
    (the true match is the closest candidate) the rank extractor returns the
    number of rows, the worst rank; the ascending sort of the specification
    returns 1. *)
Lemma closest_match_ranked_last
    (m : list (list xreal)) (i : nat) (col : list xreal) (v : xreal) :
  column m i = inr col ->
  nth_error col i = Some v ->
  (forall j w, j <> i -> nth_error col j = Some w -> xgtb w v = true) ->
  diag_rank xgtb m i = inr (length col) /\ diag_rank xltb m i = inr 1.
Proof.
  intros Hcol Hdiag H. split.
  - apply (@diag_rank_of_smallest _ xgtb i v m col Hcol Hdiag).
    intros j w Hne Hw. split; [now apply (H j) | apply xgtb_asym; now apply (H j)].
  - apply (@diag_rank_of_largest _ xltb i v m col Hcol Hdiag).
    intros j w Hne Hw. unfold xltb.
    split; [apply xgtb_asym; now apply (H j) | now apply (H j)].
Qed.

(* ================================================================== *)
(** * The theorems at concrete inputs *)

(** C6 on a 2 x 2 matrix of integers sorted with the usual order. *)
Lemma compute_diag_ranks_bounds_witness :
  square 2 [[3; 1]; [2; 4]] /\
  exists ranks,
    _compute_diag_ranks (fun a b => Nat.ltb b a) [[3; 1]; [2; 4]] = inr ranks /\
    length ranks = 2 /\
    Forall (fun r => 1 <= r <= 2) ranks.
Proof.
  assert (H : square 2 [[3; 1]; [2; 4]]).
  { split; [reflexivity | repeat constructor]. }
  split; [exact H|].
  exact (@compute_diag_ranks_bounds nat (fun a b => Nat.ltb b a) 2 [[3; 1]; [2; 4]] H).
Defined.

(** C4 on the ranks of ten items and the percentages 25, 29 and 30. *)
Lemma top_score_counts_ranks_within_threshold_witness :
  In 29%Z [25; 29; 30]%Z /\
  dict_get (score_report [1; 2; 3; 4; 5; 6; 7; 8; 9; 10]
                         (length [1; 2; 3; 4; 5; 6; 7; 8; 9; 10])
                         [25; 29; 30]%Z) (top_key 29)
  = Some (spec_top_score [1; 2; 3; 4; 5; 6; 7; 8; 9; 10] 29).
Proof.
  assert (H : In 29%Z [25; 29; 30]%Z) by (simpl; tauto).
  split; [exact H|].
  exact (proj1 (top_score_counts_ranks_within_threshold
                  [1; 2; 3; 4; 5; 6; 7; 8; 9; 10] [25; 29; 30]%Z 29%Z H)).
Defined.

(** C7 on three ranks and the percentages 10 and 50. *)
Lemma top_scores_monotone_in_k_witness :
  [1; 3; 2] <> [] /\ In 10%Z [10; 50; 100]%Z /\ In 50%Z [10; 50; 100]%Z /\
  (10 <= 50)%Z /\
  exists v1 v2,
    dict_get (score_report [1; 3; 2] (length [1; 3; 2]) [10; 50; 100]%Z)
             (top_key 10) = Some v1 /\
    dict_get (score_report [1; 3; 2] (length [1; 3; 2]) [10; 50; 100]%Z)
             (top_key 50) = Some v2 /\
    (v1 <= v2)%Q.
Proof.
  assert (H0 : [1; 3; 2] <> []) by discriminate.
  assert (H1 : In 10%Z [10; 50; 100]%Z) by (simpl; tauto).
  assert (H2 : In 50%Z [10; 50; 100]%Z) by (simpl; tauto).
  assert (H3 : (10 <= 50)%Z) by lia.
  repeat (split; [assumption|]).
  exact (@top_scores_monotone_in_k [1; 3; 2] [10; 50; 100]%Z 10%Z 50%Z H0 H1 H2 H3).
Defined.

(** C5 on an unknown method, an unknown aggregation, a rank-1 first input
    and a rank-4 second input. *)
Lemma call_rejects_invalid_configuration_and_shape_witness :
  let vector : Tensor := existT tensor 1 [1; 2; 3]%R in
  let good : Tensor := tensor2 [[1; 2]; [3; 4]]%R in
  let hyper : Tensor := existT tensor 4 [[[[1%R]]]] in
  __call__ (__init__ "manhattan" "mean") good good [1; 5; 10]%Z
  = inl (ValueError "manhattan not in list of defined methods. Please choose from ['euclidean', 'cosine', 'correlation', 'chebyshev', 'minkowski', 'cityblock']")
  /\
  __call__ (__init__ "cosine" "max") good good [1; 5; 10]%Z
  = inl (ValueError "max not in list of defined aggregations. Please choose from ['mean', 'median', 'robust_mean']")
  /\
  __call__ (__init__ "cosine" "median") vector good [1; 5; 10]%Z
  = inl (ValueError "arr1 should be a 2D or 3D tensor, but got 1D tensor")
  /\
  __call__ (__init__ "cosine" "median") good hyper [1; 5; 10]%Z
  = inl (ValueError "arr2 should be a 2D or 3D tensor, but got 4D tensor").
Proof.
  intros vector good hyper.
  assert (Hm : In "cosine"%string supported_methods) by (simpl; tauto).
  assert (Ha : In "median"%string supported_aggregations) by (simpl; tauto).
  split; [|split; [|split]].
  - apply (proj1 (call_rejects_invalid_configuration_and_shape
                    (__init__ "manhattan" "mean") good good [1; 5; 10]%Z)).
    simpl. intuition discriminate.
  - apply (proj1 (proj2 (call_rejects_invalid_configuration_and_shape
                           (__init__ "cosine" "max") good good [1; 5; 10]%Z))).
    + exact Hm.
    + simpl. intuition discriminate.
  - apply (proj1 (proj2 (proj2 (call_rejects_invalid_configuration_and_shape
                           (__init__ "cosine" "median") vector good [1; 5; 10]%Z))));
      [exact Hm | exact Ha | discriminate | discriminate].
  - apply (proj2 (proj2 (proj2 (call_rejects_invalid_configuration_and_shape
                           (__init__ "cosine" "median") good hyper [1; 5; 10]%Z))));
      [exact Hm | exact Ha | left; reflexivity | discriminate | discriminate].
Defined.


(* ================================================================== *)
(** * Shapes of the distance matrices, and when the call returns *)

Lemma pairwise_shape {B} (f : list R -> list R -> B) (X Y : matrix) :
  shape2 (length X) (length Y) (pairwise f X Y).
Proof.
  unfold shape2, pairwise. split.
  - apply length_map.
  - apply Forall_forall. intros row Hrow.
    apply in_map_iff in Hrow. destruct Hrow as [a [<- _]]. apply length_map.
Qed.

Lemma div_last_axis_shape (n f : nat) (m : list (list xreal)) (v : list R) :
  shape2 n f m -> length v = f -> shape2 n f (div_last_axis m v).
Proof.
  intros [Hn Hrows] Hv. unfold shape2, div_last_axis. split.
  - now rewrite length_map.
  - apply Forall_forall. intros row Hrow.
    apply in_map_iff in Hrow. destruct Hrow as [r [<- Hr]].
    rewrite Forall_forall in Hrows. specialize (Hrows r Hr).
    rewrite length_map, length_combine. lia.
Qed.

Lemma map_map_shape {B C} (g : B -> C) (n f : nat) (m : list (list B)) :
  shape2 n f m -> shape2 n f (map (map g) m).
Proof.
  intros [Hn Hrows]. unfold shape2. split.
  - now rewrite length_map.
  - apply Forall_forall. intros row Hrow.
    apply in_map_iff in Hrow. destruct Hrow as [r [<- Hr]].
    rewrite Forall_forall in Hrows. rewrite length_map. now apply Hrows.
Qed.

Lemma correlation_shape (X Y : matrix) :
  length X = length Y ->
  shape2 (length X) (length Y) (_correlation X Y).
Proof.
  intros HXY. unfold _correlation.
  apply map_map_shape.
  apply div_last_axis_shape; [|unfold center; now rewrite !length_map].
  apply div_last_axis_shape; [|unfold center; rewrite !length_map; exact HXY].
  pose proof (pairwise_shape
                (fun a b => Finite (sum (map (fun p => (fst p * snd p)%R) (combine a b))))
                (center X) (center Y)) as H.
  unfold center in H at 1 2. rewrite !length_map in H. exact H.
Qed.

Lemma pairwise_method (name : string) :
  In name pairwise_methods ->
  exists (f : list R -> list R -> xreal),
    dict_get _methods name = Some (pairwise f).
Proof.
  simpl. intros [<- | [<- | [<- | [<- | [<- | []]]]]]; eexists; reflexivity.
Qed.

(** Every method returns an N x M matrix when the inputs have N and M rows
    (for the correlation method, when N = M). *)
Lemma method_shape (name : string) :
  In name supported_methods ->
  exists dist,
    dict_get _methods name = Some dist /\
    forall X Y, (name = "correlation"%string -> length X = length Y) ->
                shape2 (length X) (length Y) (dist X Y).
Proof.
  simpl. intros [<- | [<- | [<- | [<- | [<- | [<- | []]]]]]];
    eexists; (split; [reflexivity|]); intros X Y HXY;
    try apply pairwise_shape.
  apply correlation_shape. now apply HXY.
Qed.

Section WideMatrix.

Context {A : Type}.
Variable gtb : A -> A -> bool.

(** The rank extractor on a matrix with at least as many columns as rows. *)
Lemma compute_diag_ranks_wide (n f : nat) (m : list (list A)) :
  shape2 n f m -> n <= f ->
  exists ranks,
    _compute_diag_ranks gtb m = inr ranks /\
    length ranks = n /\
    Forall (fun r => 1 <= r <= n) ranks.
Proof.
  intros [Hn Hrows] Hnf. unfold _compute_diag_ranks.
  assert (Hrank : forall i, i < length m ->
            exists r, diag_rank gtb m i = inr r /\ 1 <= r <= length m).
  { intros i Hi. apply diag_rank_bounds; [exact Hi|].
    eapply Forall_impl; [|exact Hrows]. simpl. intros row Hrow. lia. }
  destruct (@for_each_inr _ _ (diag_rank gtb m) (seq 0 (length m))) as [ranks [Hr HF]].
  - intros i Hi. apply in_seq in Hi.
    destruct (Hrank i) as [r [Hri _]]; [lia | eauto].
  - exists ranks. split; [exact Hr|]. split.
    + apply Forall2_length in HF. rewrite length_seq in HF. lia.
    + assert (Hin : Forall (fun i => i < length m) (seq 0 (length m))).
      { apply Forall_forall. intros i Hi. apply in_seq in Hi. lia. }
      rewrite <- Hn. clear Hr.
      induction HF as [|i r idxs rs Hir HF IH]; constructor.
      * inversion Hin as [|? ? Hi _]; subst.
        destruct (Hrank i Hi) as [r' [Hr' Hb]].
        rewrite Hir in Hr'. injection Hr' as <-. exact Hb.
      * apply IH. now inversion Hin.
Qed.

Lemma for_each_first_failure {B C} (g : B -> result C) (xs1 xs2 : list B)
    (x0 : B) (e : exn) :
  (forall x, In x xs1 -> exists y, g x = inr y) ->
  g x0 = inl e ->
  for_each g (xs1 ++ x0 :: xs2) = inl e.
Proof.
  intros Hok Hfail. induction xs1 as [|x xs1 IH]; simpl.
  - now rewrite Hfail.
  - destruct (Hok x (or_introl eq_refl)) as [y Hy]. rewrite Hy. simpl.
    rewrite IH; [reflexivity|]. intros z Hz. apply Hok. now right.
Qed.

(** On a matrix with fewer columns than rows the loop reaches a column that
    does not exist. *)
Lemma compute_diag_ranks_narrow (n f : nat) (m : list (list A)) :
  shape2 n f m -> f < n ->
  _compute_diag_ranks gtb m = inl IndexError.
Proof.
  intros [Hn Hrows] Hfn. unfold _compute_diag_ranks.
  rewrite Hn.
  replace (seq 0 n) with (seq 0 f ++ f :: seq (S f) (n - S f)).
  - apply for_each_first_failure.
    + intros i Hi. apply in_seq in Hi.
      destruct (@diag_rank_bounds _ gtb m i) as [r [Hr _]]; [lia | | eauto].
      eapply Forall_impl; [|exact Hrows]. simpl. intros row Hrow. lia.
    + unfold diag_rank, column.
      destruct m as [|row m]; [simpl in Hn; lia|].
      inversion Hrows as [|? ? Hrow _]; subst. simpl.
      assert (E : nth_error row (length row) = None)
        by (apply nth_error_None; lia).
      rewrite E. reflexivity.
  - transitivity (seq 0 (f + S (n - S f))).
    + rewrite seq_app. reflexivity.
    + f_equal. lia.
Qed.

End WideMatrix.

(* ================================================================== *)
(** * Ranges of the reported scores *)

Lemma Qnat_pos (n : nat) : 0 < n -> (0 < Qnat n)%Q.
Proof.
  intros H. unfold Qnat, Qlt. simpl. lia.
Qed.

Lemma Qnat_mul (a b : nat) : (Qnat (a * b) == Qnat a * Qnat b)%Q.
Proof.
  unfold Qnat. rewrite Nat2Z.inj_mul, inject_Z_mult. reflexivity.
Qed.

Lemma percent_range (a n : nat) :
  0 < n -> a <= n -> in_percent (Qnat a / Qnat n * 100).
Proof.
  intros Hn Ha. unfold in_percent.
  assert (Hnz : ~ (Qnat n == 0)%Q).
  { intros E. pose proof (Qnat_pos Hn) as Hp. rewrite E in Hp.
    now apply Qlt_irrefl in Hp. }
  split.
  - apply Qle_trans with (y := (Qnat 0 / Qnat n * 100)%Q).
    + unfold Qnat at 1. simpl. unfold Qdiv. rewrite Qmult_0_l. discriminate.
    + apply percent_mono. lia.
  - apply Qle_trans with (y := (Qnat n / Qnat n * 100)%Q).
    + now apply percent_mono.
    + apply Qle_lteq. right. field. exact Hnz.
Qed.

Lemma sum_bool_le_length (l : list bool) : sum_bool l <= length l.
Proof.
  induction l as [|b l IH]; simpl; [lia|]. destruct b; simpl; lia.
Qed.

Lemma top_score_range (ranks : list nat) (k : Z) :
  ranks <> [] -> in_percent (top_score ranks (length ranks) k).
Proof.
  intros Hne. unfold top_score. apply percent_range.
  - destruct ranks; [congruence | simpl; lia].
  - unfold le_threshold.
    pose proof (sum_bool_le_length
                  (map (fun r => Qle_bool (Qnat r) (number_values (length ranks) k)) ranks)) as H.
    now rewrite length_map in H.
Qed.

Lemma ranks_sum_bounds (n : nat) (ranks : list nat) :
  Forall (fun r => 1 <= r <= n) ranks ->
  length ranks <= fold_right Nat.add 0 ranks <= n * length ranks.
Proof.
  induction 1 as [|r ranks Hr _ IH]; simpl; lia.
Qed.

(** The normalised mean rank lies between 100/N and 100. *)
Lemma mean_ranks_range (ranks : list nat) :
  ranks <> [] ->
  Forall (fun r => 1 <= r <= length ranks) ranks ->
  (100 / Qnat (length ranks)
   <= mean_of_ranks ranks / Qnat (length ranks) * 100 /\
   mean_of_ranks ranks / Qnat (length ranks) * 100 <= 100)%Q.
Proof.
  intros Hne Hb.
  assert (Hn : 0 < length ranks) by (destruct ranks; [congruence | simpl; lia]).
  pose proof (Qnat_pos Hn) as Hp.
  assert (Hnz : ~ (Qnat (length ranks) == 0)%Q).
  { intros E. rewrite E in Hp. now apply Qlt_irrefl in Hp. }
  destruct (ranks_sum_bounds Hb) as [Hlo Hhi].
  unfold mean_of_ranks.
  set (s := fold_right Nat.add 0 ranks) in *.
  set (n := length ranks) in *.
  split.
  - apply Qle_trans with (y := (Qnat n / Qnat n / Qnat n * 100)%Q).
    + apply Qle_lteq. right. field. exact Hnz.
    + apply Qmult_le_compat_r; [|discriminate].
      apply Qmult_le_compat_r; [|apply Qlt_le_weak, Qinv_lt_0_compat, Hp].
      apply Qmult_le_compat_r; [|apply Qlt_le_weak, Qinv_lt_0_compat, Hp].
      now apply Qnat_le.
  - apply Qle_trans with (y := (Qnat (n * n) / Qnat n / Qnat n * 100)%Q).
    + apply Qmult_le_compat_r; [|discriminate].
      apply Qmult_le_compat_r; [|apply Qlt_le_weak, Qinv_lt_0_compat, Hp].
      apply Qmult_le_compat_r; [|apply Qlt_le_weak, Qinv_lt_0_compat, Hp].
      now apply Qnat_le.
    + apply Qle_lteq. right. rewrite Qnat_mul. field. exact Hnz.
Qed.

(** What the report holds for a rank vector within bounds. *)
Lemma report_ranges (ranks : list nat) (ks : list Z) :
  ranks <> [] ->
  Forall (fun r => 1 <= r <= length ranks) ranks ->
  let d := score_report ranks (length ranks) ks in
  (forall k, In k ks -> exists v, dict_get d (top_key k) = Some v /\ in_percent v) /\
  (exists v, dict_get d "mean_ranks" = Some v /\
             (100 / Qnat (length ranks) <= v)%Q /\ (v <= 100)%Q) /\
  (exists v, dict_get d "exact_matching" = Some v /\ in_percent v).
Proof.
  intros Hne Hb d. subst d. repeat split.
  - intros k Hk. rewrite (report_top _ _ _ _ Hk). eexists. split; [reflexivity|].
    now apply top_score_range.
  - rewrite report_mean_ranks. eexists. split; [reflexivity|].
    now apply mean_ranks_range.
  - rewrite report_exact_matching. eexists. split; [reflexivity|].
    apply percent_range.
    + destruct ranks; [congruence | simpl; lia].
    + pose proof (sum_bool_le_length (map (fun r => Nat.eqb r 0) ranks)) as H.
      now rewrite length_map in H.
Qed.

(* ================================================================== *)
(** * The call on valid inputs *)

(** With a valid configuration, two rank-2 inputs and at least as many rows
    in the second input as in the first, the call returns the report of a
    rank vector within bounds. *)
Lemma call_valid (self : TopKDistance) (m1 m2 : matrix) (ks : list Z) :
  In (method self) supported_methods ->
  In (aggregate self) supported_aggregations ->
  length m1 <= length m2 ->
  (method self = "correlation"%string -> length m1 = length m2) ->
  exists ranks,
    __call__ self (tensor2 m1) (tensor2 m2) ks
    = inr (score_report ranks (length m1) ks) /\
    length ranks = length m1 /\
    Forall (fun r => 1 <= r <= length m1) ranks.
Proof.
  intros Hm Ha Hle Hcorr.
  destruct (method_shape Hm) as [dist [Hd Hshape]].
  specialize (Hshape m1 m2 Hcorr).
  destruct (compute_diag_ranks_wide xgtb Hshape Hle) as [ranks [Hr [Hlen Hb]]].
  exists ranks. split; [|split; assumption].
  rewrite (@call_rank2 self m1 m2 ks dist Hd Ha), Hr. simpl.
  destruct Hshape as [-> _]. reflexivity.
Qed.

(** X1: with a supported method and aggregation, two rank-2 inputs with the
    same number F >= 1 of features, a non-empty first input and at least as
    many rows in the second input as in the first (the same number for the
    correlation method), the call returns a report: every requested top{K}
    entry and the exact_matching entry are between 0 and 100, and mean_ranks
    is between 100/N and 100. *)
Theorem call_returns_percentages
    (self : TopKDistance) (f : nat) (m1 m2 : matrix) (ks : list Z) :
  In (method self) supported_methods ->
  In (aggregate self) supported_aggregations ->
  collection f m1 -> collection f m2 ->
  m1 <> [] ->
  length m1 <= length m2 ->
  (method self = "correlation"%string -> length m1 = length m2) ->
  exists d,
    __call__ self (tensor2 m1) (tensor2 m2) ks = inr d /\
    (forall k, In k ks -> exists v, dict_get d (top_key k) = Some v /\ in_percent v) /\
    (exists v, dict_get d "mean_ranks" = Some v /\
               (100 / Qnat (length m1) <= v)%Q /\ (v <= 100)%Q) /\
    (exists v, dict_get d "exact_matching" = Some v /\ in_percent v).
Proof.
  intros Hm Ha _ _ Hne Hle Hcorr.
  destruct (@call_valid self m1 m2 ks Hm Ha Hle Hcorr) as [ranks [Hcall [Hlen Hb]]].
  exists (score_report ranks (length m1) ks). split; [exact Hcall|].
  rewrite <- Hlen in *.
  apply report_ranges; [|exact Hb].
  intros ->. simpl in Hlen. destruct m1; [congruence | discriminate].
Qed.

(** X2: with one of the five methods computed pair by pair and two rank-2
    inputs with the same number F >= 1 of features, a second input with
    fewer rows than the first makes the call raise [IndexError]: the loop
    over the rows of the matrix indexes a column that does not exist. *)
Theorem call_with_fewer_candidates_raises
    (self : TopKDistance) (f : nat) (m1 m2 : matrix) (ks : list Z) :
  In (method self) pairwise_methods ->
  In (aggregate self) supported_aggregations ->
  collection f m1 -> collection f m2 ->
  length m2 < length m1 ->
  __call__ self (tensor2 m1) (tensor2 m2) ks = inl IndexError.
Proof.
  intros Hm Ha _ _ Hlt.
  destruct (pairwise_method Hm) as [g Hd].
  rewrite (@call_rank2 self m1 m2 ks (pairwise g) Hd Ha).
  rewrite (compute_diag_ranks_narrow xgtb (pairwise_shape g m1 m2) Hlt).
  reflexivity.
Qed.

(** X3: on two rank-2 inputs the outcome of the call does not depend on
    which of the supported aggregations is configured. *)
Theorem aggregation_unused_on_rank2
    (name agg agg' : string) (m1 m2 : matrix) (ks : list Z) :
  In agg supported_aggregations ->
  In agg' supported_aggregations ->
  __call__ (__init__ name agg) (tensor2 m1) (tensor2 m2) ks
  = __call__ (__init__ name agg') (tensor2 m1) (tensor2 m2) ks.
Proof.
  intros Ha Ha'. apply aggregate_known in Ha. apply aggregate_known in Ha'.
  unfold __call__, __init__. cbn [method aggregate].
  rewrite Ha, Ha'. reflexivity.
Qed.

Lemma aggregator_rank3 (agg : string) :
  In agg supported_aggregations ->
  exists f red,
    dict_get _aggregs agg = Some f /\
    forall c, f (tensor3 c) = tensor2 (red c).
Proof.
  simpl. intros [<- | [<- | [<- | []]]];
    eexists; eexists; (split; [reflexivity|]); intros c; reflexivity.
Qed.

(** X4: passing a rank-3 input is the same as passing its aggregate: the
    configured aggregation is applied once, to each rank-3 input, before
    the distances are computed. *)
Theorem call_aggregates_rank3_inputs
    (self : TopKDistance) (ks : list Z) :
  In (aggregate self) supported_aggregations ->
  exists f,
    dict_get _aggregs (aggregate self) = Some f /\
    (forall c1 arr2,
       __call__ self (tensor3 c1) arr2 ks = __call__ self (f (tensor3 c1)) arr2 ks) /\
    (forall arr1 c2,
       __call__ self arr1 (tensor3 c2) ks = __call__ self arr1 (f (tensor3 c2)) ks).
Proof.
  intros Ha.
  destruct (aggregator_rank3 Ha) as [f [red [Hf Hred]]].
  exists f. split; [exact Hf|].
  apply aggregate_known in Ha.
  split.
  - intros c1 arr2. unfold __call__, getitem. rewrite Ha, Hf.
    cbn [bind ret ndim tensor3 projT1 Nat.eqb]. rewrite !Hred.
    destruct (dict_mem _methods (method self)); reflexivity.
  - intros arr1 c2. unfold __call__, getitem. rewrite Ha, Hf.
    cbn [bind ret ndim tensor3 projT1 Nat.eqb]. rewrite !Hred.
    destruct (dict_mem _methods (method self)); [|reflexivity].
    cbn [negb]. cbv iota.
    destruct (negb (in_2_3 (ndim arr1))); reflexivity.
Qed.

(* ================================================================== *)
(** * The keys of the report *)

Section DictKeys.

Context {V : Type}.

Lemma dict_keys_set_new (d : dict V) (k : string) (v : V) :
  ~ In k (dict_keys d) -> dict_keys (dict_set d k v) = dict_keys d ++ [k].
Proof.
  unfold dict_keys. induction d as [|[k' v'] d IH]; simpl; intros H.
  - reflexivity.
  - destruct (String.eqb k' k) eqn:E.
    + apply String.eqb_eq in E. tauto.
    + simpl. rewrite IH by tauto. reflexivity.
Qed.

Lemma dict_keys_set_old (d : dict V) (k : string) (v : V) :
  In k (dict_keys d) -> dict_keys (dict_set d k v) = dict_keys d.
Proof.
  unfold dict_keys. induction d as [|[k' v'] d IH]; simpl; intros H.
  - contradiction.
  - destruct (String.eqb k' k) eqn:E.
    + apply String.eqb_eq in E. now subst.
    + apply String.eqb_neq in E. simpl. rewrite IH; [reflexivity | tauto].
Qed.

End DictKeys.

Lemma top_loop_keys (g : Z -> Q) (ks : list Z) (d : dict Q) :
  NoDup ks ->
  (forall k, In k ks -> ~ In (top_key k) (dict_keys d)) ->
  dict_keys (fold_left (fun d k => dict_set d (top_key k) (g k)) ks d)
  = dict_keys d ++ map top_key ks.
Proof.
  revert d. induction ks as [|a ks IH]; intros d Hnd Hfresh; simpl.
  - now rewrite app_nil_r.
  - inversion Hnd as [|? ? Hna Hnd']; subst.
    rewrite IH.
    + rewrite dict_keys_set_new by (apply Hfresh; now left).
      now rewrite <- app_assoc.
    + exact Hnd'.
    + intros k Hk. rewrite dict_keys_set_new by (apply Hfresh; now left).
      intros Hin. apply in_app_or in Hin. destruct Hin as [Hin|[E|[]]].
      * apply (Hfresh k); [now right | exact Hin].
      * apply top_key_inj in E. congruence.
Qed.

Lemma top_key_not_summary (ks : list Z) (key : string) :
  key = "mean_ranks"%string \/ key = "exact_matching"%string ->
  ~ In key (map top_key ks).
Proof.
  intros Hkey Hin. apply in_map_iff in Hin. destruct Hin as [k [E _]].
  unfold top_key in E. destruct Hkey as [-> | ->]; discriminate E.
Qed.

Lemma report_keys (ranks : list nat) (n : nat) (ks : list Z) :
  NoDup ks ->
  dict_keys (score_report ranks n ks)
  = map top_key ks ++ ["mean_ranks"; "exact_matching"]%string.
Proof.
  intros Hnd. unfold score_report.
  pose proof (@top_loop_keys (fun k => top_score ranks n k) ks [] Hnd) as Hloop.
  simpl in Hloop. specialize (Hloop (fun _ _ H => H)).
  set (d1 := fold_left (fun (d : dict Q) (k : Z) =>
                          dict_set d (top_key k) (top_score ranks n k)) ks []) in *.
  assert (H1 : dict_keys (dict_set d1 "mean_ranks"
                 (mean_of_ranks ranks / Qnat n * 100)%Q)
               = map top_key ks ++ ["mean_ranks"%string]).
  { rewrite dict_keys_set_new; rewrite Hloop; [reflexivity|].
    apply top_key_not_summary. now left. }
  rewrite dict_keys_set_new; rewrite H1.
  - now rewrite <- app_assoc.
  - intros Hin. apply in_app_or in Hin. destruct Hin as [Hin|[E|[]]].
    + revert Hin. apply top_key_not_summary. now right.
    + discriminate E.
Qed.

(** X5: on valid inputs (as in X1) and a list of pairwise different
    percentages, the keys of the returned report are, in insertion order,
    'top' followed by each percentage of [k_range] in the order given, then
    'mean_ranks', then 'exact_matching'. *)
Theorem call_report_keys
    (self : TopKDistance) (f : nat) (m1 m2 : matrix) (ks : list Z) :
  In (method self) supported_methods ->
  In (aggregate self) supported_aggregations ->
  collection f m1 -> collection f m2 ->
  length m1 <= length m2 ->
  (method self = "correlation"%string -> length m1 = length m2) ->
  NoDup ks ->
  exists d,
    __call__ self (tensor2 m1) (tensor2 m2) ks = inr d /\
    dict_keys d = map top_key ks ++ ["mean_ranks"; "exact_matching"]%string.
Proof.
  intros Hm Ha _ _ Hle Hcorr Hnd.
  destruct (@call_valid self m1 m2 ks Hm Ha Hle Hcorr) as [ranks [Hcall _]].
  exists (score_report ranks (length m1) ks). split; [exact Hcall|].
  now apply report_keys.
Qed.

(* ================================================================== *)
(** * The distance engine *)

Section DistanceFacts.

Local Open Scope R_scope.

Lemma entry_pairwise {B} (f : list R -> list R -> B) (X Y : matrix) (i j : nat) :
  entry (pairwise f X Y) i j
  = match nth_error X i, nth_error Y j with
    | Some a, Some b => Some (f a b)
    | _, _ => None
    end.
Proof.
  unfold entry, pairwise. rewrite nth_error_map.
  destruct (nth_error X i) as [a|]; simpl; [|reflexivity].
  rewrite nth_error_map. destruct (nth_error Y j); reflexivity.
Qed.

(** ** Symmetry *)

Lemma map_even_sub (g : R -> R) (a b : list R) :
  (forall x, g (- x) = g x) ->
  map g (sub a b) = map g (sub b a).
Proof.
  intros Hg. unfold sub. revert b.
  induction a as [|x a IH]; intros [|y b]; simpl; try reflexivity.
  rewrite IH. f_equal.
  replace (x - y) with (- (y - x)) by ring. apply Hg.
Qed.

Lemma norm2_sub_sym (a b : list R) : norm2 (sub a b) = norm2 (sub b a).
Proof.
  unfold norm2. rewrite (map_even_sub (fun x => x * x) a b); [reflexivity|].
  intros x. ring.
Qed.

Lemma abs_sub_sym (a b : list R) : map Rabs (sub a b) = map Rabs (sub b a).
Proof.
  apply map_even_sub. apply Rabs_Ropp.
Qed.

Lemma norm_sub_sym (p : nat) (a b : list R) : norm p (sub a b) = norm p (sub b a).
Proof.
  unfold norm. rewrite (map_even_sub (fun x => Rabs x ^ p) a b); [reflexivity|].
  intros x. now rewrite Rabs_Ropp.
Qed.

Lemma dot_sym (u v : list R) : dot u v = dot v u.
Proof.
  unfold dot. revert v.
  induction u as [|x u IH]; intros [|y v]; simpl; try reflexivity.
  fold (sum (map (fun p => fst p * snd p) (combine u v))).
  fold (sum (map (fun p => fst p * snd p) (combine v u))).
  rewrite IH. ring.
Qed.

Lemma cosine_similarity_sym (u v : list R) :
  cosine_similarity u v = cosine_similarity v u.
Proof.
  unfold cosine_similarity. rewrite dot_sym. f_equal. ring.
Qed.

Lemma pairwise_method_symmetric (name : string) :
  In name pairwise_methods ->
  exists f, dict_get _methods name = Some (pairwise f) /\
            forall a b : list R, f a b = f b a.
Proof.
  simpl. intros [<- | [<- | [<- | [<- | [<- | []]]]]];
    eexists; (split; [reflexivity|]); intros a b; cbv beta; f_equal.
  - apply norm2_sub_sym.
  - f_equal. apply cosine_similarity_sym.
  - f_equal. apply abs_sub_sym.
  - apply norm_sub_sym.
  - f_equal. apply abs_sub_sym.
Qed.

(** X6: for the euclidean, cosine, chebyshev, minkowski and cityblock
    methods, swapping two collections with the same number F >= 1 of
    features transposes the distance matrix: entry (i, j) of the matrix of
    (X, Y) is entry (j, i) of the matrix of (Y, X). *)
Theorem distance_matrix_transposes (name : string) (f : nat) :
  In name pairwise_methods ->
  exists dist,
    dict_get _methods name = Some dist /\
    forall (X Y : matrix) (i j : nat),
      collection f X -> collection f Y ->
      entry (dist X Y) i j = entry (dist Y X) j i.
Proof.
  intros H. destruct (pairwise_method_symmetric H) as [g [Hd Hsym]].
  exists (pairwise g). split; [exact Hd|].
  intros X Y i j _ _. rewrite !entry_pairwise.
  destruct (nth_error X i), (nth_error Y j); try reflexivity.
  now rewrite Hsym.
Qed.

(** ** Zero on the diagonal *)

Lemma sub_self_zeros (a : list R) : sub a a = map (fun _ => 0) a.
Proof.
  unfold sub. induction a as [|x a IH]; simpl; [reflexivity|].
  rewrite IH. f_equal. ring.
Qed.

Lemma sum_abs_zeros (a : list R) : sum (map Rabs (map (fun _ => 0) a)) = 0.
Proof.
  induction a as [|x a IH]; simpl; [reflexivity|].
  fold (sum (map Rabs (map (fun _ : R => 0) a))). rewrite IH, Rabs_R0. ring.
Qed.

Lemma max_list_zeros (a : list R) : max_list (map Rabs (map (fun _ => 0) a)) = 0.
Proof.
  destruct a as [|x a]; simpl; [reflexivity|].
  rewrite Rabs_R0.
  induction a as [|y a IH]; simpl; [reflexivity|].
  rewrite Rabs_R0. unfold Rmax at 2.
  destruct (Rle_dec 0 0); exact IH.
Qed.

Lemma sum_pow_zeros (p : nat) (a : list R) :
  (0 < p)%nat -> sum (map (fun x => Rabs x ^ p) (map (fun _ => 0) a)) = 0.
Proof.
  intros Hp. induction a as [|x a IH]; simpl; [reflexivity|].
  fold (sum (map (fun x => Rabs x ^ p) (map (fun _ : R => 0) a))).
  rewrite IH, Rabs_R0, pow_i by exact Hp. ring.
Qed.

Lemma pow_zero (y : R) : pow 0 y = 0.
Proof.
  unfold pow. destruct (Reqb_spec 0 0) as [_|H]; [reflexivity | congruence].
Qed.

Lemma norm_method_self (name : string) :
  In name ["euclidean"; "chebyshev"; "minkowski"; "cityblock"]%string ->
  exists f, dict_get _methods name = Some (pairwise f) /\
            forall a : list R, f a a = Finite 0.
Proof.
  simpl. intros [<- | [<- | [<- | [<- | []]]]];
    eexists; (split; [reflexivity|]); intros a; cbv beta; f_equal.
  - apply norm2_sub_self.
  - rewrite sub_self_zeros. apply max_list_zeros.
  - unfold norm. rewrite sub_self_zeros, sum_pow_zeros by lia. apply pow_zero.
  - rewrite sub_self_zeros. apply sum_abs_zeros.
Qed.

(** X7: under the euclidean, chebyshev, minkowski and cityblock methods the
    distance matrix of a collection (with F >= 1 features) against itself
    has 0 on its diagonal. *)
Theorem self_distance_zero_diagonal
    (name : string) (f : nat) (X : matrix) (i : nat) :
  In name ["euclidean"; "chebyshev"; "minkowski"; "cityblock"]%string ->
  collection f X ->
  (i < length X)%nat ->
  exists dist,
    dict_get _methods name = Some dist /\
    entry (dist X X) i i = Some (Finite 0).
Proof.
  intros H _ Hi. destruct (norm_method_self H) as [g [Hd Hself]].
  exists (pairwise g). split; [exact Hd|].
  rewrite entry_pairwise.
  destruct (nth_error X i) as [a|] eqn:E.
  - now rewrite Hself.
  - apply nth_error_None in E. lia.
Qed.

End DistanceFacts.

Section DistanceRanges.

Local Open Scope R_scope.

Lemma sum_nonneg (l : list R) : Forall (fun x => 0 <= x) l -> 0 <= sum l.
Proof.
  induction 1 as [|x l Hx _ IH]; simpl; [lra|].
  fold (sum l). lra.
Qed.

Lemma sum_abs_nonneg (v : list R) : 0 <= sum (map Rabs v).
Proof.
  apply sum_nonneg. apply Forall_forall. intros x Hx.
  apply in_map_iff in Hx. destruct Hx as [y [<- _]]. apply Rabs_pos.
Qed.

Lemma fold_max_ge (l : list R) (x : R) : x <= fold_left Rmax l x.
Proof.
  revert x. induction l as [|y l IH]; intros x; simpl; [lra|].
  eapply Rle_trans; [apply (Rmax_l x y) | apply IH].
Qed.

Lemma max_list_abs_nonneg (v : list R) : 0 <= max_list (map Rabs v).
Proof.
  destruct v as [|x v]; simpl; [lra|].
  eapply Rle_trans; [apply (Rabs_pos x) | apply fold_max_ge].
Qed.

Lemma pow_nonneg (x y : R) : 0 <= pow x y.
Proof.
  unfold pow. destruct (Reqb x 0); [lra|].
  unfold Rpower. left. apply exp_pos.
Qed.

Lemma norm2_nonneg (v : list R) : 0 <= norm2 v.
Proof.
  unfold norm2. apply sqrt_pos.
Qed.




End DistanceRanges.

Section SingleCoordinate.

Local Open Scope R_scope.

Lemma sum_app (l1 l2 : list R) : sum (l1 ++ l2) = sum l1 + sum l2.
Proof.
  induction l1 as [|x l1 IH]; simpl; [ring|].
  fold (sum (l1 ++ l2)). fold (sum l1). rewrite IH. ring.
Qed.

Lemma sub_common_prefix (l r1 r2 : list R) :
  sub (l ++ r1) (l ++ r2) = map (fun _ => 0) l ++ sub r1 r2.
Proof.
  unfold sub. induction l as [|x l IH]; simpl; [reflexivity|].
  rewrite IH. f_equal. ring.
Qed.

(** The difference of two vectors that agree outside one coordinate. *)
Lemma sub_one_coordinate (l1 l2 : list R) (x y : R) :
  sub (l1 ++ x :: l2) (l1 ++ y :: l2)
  = map (fun _ => 0) l1 ++ (x - y) :: map (fun _ => 0) l2.
Proof.
  rewrite sub_common_prefix. f_equal.
  change (x :: l2) with ([x] ++ l2). change (y :: l2) with ([y] ++ l2).
  unfold sub at 1. simpl. f_equal.
  fold (sub l2 l2). apply sub_self_zeros.
Qed.

Lemma sum_map_zeros (g : R -> R) (l : list R) :
  g 0 = 0 -> sum (map g (map (fun _ => 0) l)) = 0.
Proof.
  intros Hg. induction l as [|x l IH]; simpl; [reflexivity|].
  fold (sum (map g (map (fun _ : R => 0) l))). rewrite IH, Hg. ring.
Qed.

Lemma sum_map_one_coordinate (g : R -> R) (l1 l2 : list R) (d : R) :
  g 0 = 0 ->
  sum (map g (map (fun _ => 0) l1 ++ d :: map (fun _ => 0) l2)) = g d.
Proof.
  intros Hg. rewrite map_app, sum_app. simpl.
  fold (sum (map g (map (fun _ : R => 0) l2))).
  rewrite !sum_map_zeros by exact Hg. ring.
Qed.

Lemma fold_max_le (l : list R) (x M : R) :
  x <= M -> Forall (fun y => y <= M) l -> fold_left Rmax l x <= M.
Proof.
  revert x. induction l as [|y l IH]; intros x Hx Hl; simpl; [exact Hx|].
  inversion Hl; subst. apply IH; [|assumption].
  now apply Rmax_lub.
Qed.

Lemma fold_max_ge_in (l : list R) (x y : R) :
  In y l -> y <= fold_left Rmax l x.
Proof.
  revert x. induction l as [|z l IH]; intros x; simpl; [tauto|].
  intros [-> | H].
  - eapply Rle_trans; [apply (Rmax_r x y) | apply fold_max_ge].
  - now apply IH.
Qed.

Lemma max_list_attained (l : list R) (M : R) :
  In M l -> Forall (fun y => y <= M) l -> max_list l = M.
Proof.
  intros Hin Hall. destruct l as [|x l]; [contradiction|]. simpl.
  inversion Hall; subst.
  apply Rle_antisym.
  - now apply fold_max_le.
  - destruct Hin as [-> | Hin]; [apply fold_max_ge | now apply fold_max_ge_in].
Qed.

Lemma max_abs_one_coordinate (l1 l2 : list R) (d : R) :
  max_list (map Rabs (map (fun _ => 0) l1 ++ d :: map (fun _ => 0) l2)) = Rabs d.
Proof.
  apply max_list_attained.
  - rewrite map_app. apply in_or_app. right. now left.
  - apply Forall_forall. intros z Hz.
    rewrite map_app in Hz. apply in_app_or in Hz. simpl in Hz.
    assert (Hzero : forall l : list R,
              In z (map Rabs (map (fun _ => 0) l)) -> z <= Rabs d).
    { intros l Hl. apply in_map_iff in Hl. destruct Hl as [w [<- Hw]].
      apply in_map_iff in Hw. destruct Hw as [w' [<- _]].
      rewrite Rabs_R0. apply Rabs_pos. }
    destruct Hz as [Hz | [<- | Hz]]; [now apply (Hzero l1) | lra | now apply (Hzero l2)].
Qed.



End SingleCoordinate.

(* ================================================================== *)
(** * Ranks of a diagonal that dominates, or is dominated by, its columns *)

Lemma column_entry {A} (m : list (list A)) (i : nat) (col : list A) :
  column m i = inr col -> forall j, nth_error col j = entry m j i.
Proof.
  unfold column, entry. revert col.
  induction m as [|row m IH]; intros col; simpl.
  - intros E. injection E as <-. intros [|j]; reflexivity.
  - destruct (nth_error row i) as [x|] eqn:Hx; simpl; [|discriminate].
    destruct (for_each _ m) as [e|col'] eqn:Hc; simpl; [discriminate|].
    intros E. injection E as <-.
    intros [|j]; simpl; [now rewrite Hx | now apply IH].
Qed.

Lemma for_each_const {B C} (g : B -> result C) (c : C) (xs : list B) :
  (forall x, In x xs -> g x = inr c) ->
  for_each g xs = inr (repeat c (length xs)).
Proof.
  induction xs as [|x xs IH]; intros H; simpl; [reflexivity|].
  rewrite (H x (or_introl eq_refl)). simpl.
  rewrite IH; [reflexivity|]. intros z Hz. apply H. now right.
Qed.

Lemma square_column {A} (n : nat) (m : list (list A)) (i : nat) :
  square n m -> i < n ->
  exists col v, column m i = inr col /\ length col = n /\ nth_error col i = Some v.
Proof.
  intros [Hn Hrows] Hi.
  destruct (@column_inr _ m i) as [col [Hc Hl]].
  { eapply Forall_impl; [|exact Hrows]. simpl. intros row Hrow. lia. }
  destruct (nth_error col i) as [v|] eqn:Hv.
  - exists col, v. split; [exact Hc|]. split; [lia | exact Hv].
  - apply nth_error_None in Hv. lia.
Qed.

Lemma extreme_diagonal_ranks (n : nat) (m : list (list xreal)) :
  square n m ->
  ((forall i j v w, i <> j -> entry m i i = Some v -> entry m j i = Some w ->
                    xgtb v w = true) ->
   _compute_diag_ranks xgtb m = inr (repeat 1 n)) /\
  ((forall i j v w, i <> j -> entry m i i = Some v -> entry m j i = Some w ->
                    xgtb w v = true) ->
   _compute_diag_ranks xgtb m = inr (repeat n n)).
Proof.
  intros Hsq. pose proof Hsq as [Hn _].
  unfold _compute_diag_ranks. rewrite Hn.
  split; intros Hdom.
  - replace (repeat 1 n) with (repeat 1 (length (seq 0 n)))
      by (now rewrite length_seq).
    apply for_each_const.
    intros i Hi. apply in_seq in Hi.
    destruct (@square_column _ n m i Hsq) as [col [v [Hc [Hl Hv]]]]; [lia|].
    apply (@diag_rank_of_largest _ xgtb i v m col Hc Hv).
    intros j w Hne Hw.
    rewrite (column_entry _ _ Hc) in Hw, Hv.
    assert (Hgt : xgtb v w = true) by (apply (Hdom i j); auto).
    split; [now apply xgtb_asym | exact Hgt].
  - replace (repeat n n) with (repeat n (length (seq 0 n)))
      by (now rewrite length_seq).
    apply for_each_const.
    intros i Hi. apply in_seq in Hi.
    destruct (@square_column _ n m i Hsq) as [col [v [Hc [Hl Hv]]]]; [lia|].
    rewrite <- Hl.
    apply (@diag_rank_of_smallest _ xgtb i v m col Hc Hv).
    intros j w Hne Hw.
    rewrite (column_entry _ _ Hc) in Hw, Hv.
    assert (Hgt : xgtb w v = true) by (apply (Hdom i j); auto).
    split; [exact Hgt | now apply xgtb_asym].
Qed.

(** X10: on a square matrix whose diagonal entry is, in every column,
    strictly greater than the other entries of the column, every rank is 1;
    when it is strictly smaller than the other entries, every rank is N. *)
Theorem ranks_of_extreme_diagonal (n : nat) (m : list (list xreal)) :
  square n m ->
  ((forall i j v w, i <> j -> entry m i i = Some v -> entry m j i = Some w ->
                    xgtb v w = true) ->
   _compute_diag_ranks xgtb m = inr (repeat 1 n)) /\
  ((forall i j v w, i <> j -> entry m i i = Some v -> entry m j i = Some w ->
                    xgtb w v = true) ->
   _compute_diag_ranks xgtb m = inr (repeat n n)).
Proof.
  apply extreme_diagonal_ranks.
Qed.


Section SelfComparison.

Local Open Scope R_scope.

Lemma squares_zero_all_zero (l : list R) :
  sum (map (fun x => x * x) l) = 0 -> Forall (fun x => x = 0) l.
Proof.
  induction l as [|x l IH]; simpl; intros H; [constructor|].
  fold (sum (map (fun x => x * x) l)) in H.
  pose proof (sum_squares_nonneg l) as Hl.
  assert (Hx : x * x = 0) by nra.
  constructor; [nra | apply IH; nra].
Qed.

Lemma sub_zero_eq (a b : list R) :
  length a = length b -> Forall (fun x => x = 0) (sub a b) -> a = b.
Proof.
  unfold sub. revert b.
  induction a as [|x a IH]; intros [|y b]; simpl; try discriminate; [reflexivity|].
  intros Hl H. inversion H as [|? ? Hxy Hrest]; subst. simpl in Hxy.
  f_equal; [lra | apply IH; [lia | exact Hrest]].
Qed.

(** Two different vectors of the same length are at a positive euclidean
    distance. *)
Lemma norm2_sub_pos (a b : list R) :
  length a = length b -> a <> b -> 0 < norm2 (sub a b).
Proof.
  intros Hl Hne. apply norm2_pos.
  destruct (Rle_lt_or_eq_dec _ _ (sum_squares_nonneg (sub a b))) as [H|H];
    [exact H|].
  exfalso. apply Hne. apply sub_zero_eq; [exact Hl|].
  apply squares_zero_all_zero. now symmetry.
Qed.


End SelfComparison.



Lemma top_score_full (ranks : list nat) (k : Z) :
  ranks <> [] ->
  Forall (fun r => r <= length ranks) ranks ->
  (100 <= k)%Z ->
  (top_score ranks (length ranks) k == 100)%Q.
Proof.
  intros Hne H Hk. unfold top_score, le_threshold.
  rewrite sum_bool_all_true.
  - assert (Hn : ~ (Qnat (length ranks) == 0)%Q).
    { unfold Qnat, Qeq. simpl. destruct ranks; [congruence | simpl; lia]. }
    field. exact Hn.
  - eapply Forall_impl; [|exact H]. simpl. intros r Hr.
    apply rank_le_threshold. unfold number_values, Qnat. simpl. nia.
Qed.

Lemma number_values_below_one (n : nat) (k : Z) :
  (Z.of_nat n * k < 100)%Z -> (number_values n k < 1)%Q.
Proof.
  intros H. unfold number_values, Qnat, Qlt. simpl. lia.
Qed.

(** X12: on valid inputs (as in X1) the entry top{K} of the report is 100
    for every requested K >= 100, and 0 for every requested K with
    N * K < 100, whatever the distances are. *)
Theorem top_scores_at_the_extremes
    (self : TopKDistance) (f : nat) (m1 m2 : matrix) (ks : list Z) :
  In (method self) supported_methods ->
  In (aggregate self) supported_aggregations ->
  collection f m1 -> collection f m2 ->
  m1 <> [] ->
  length m1 <= length m2 ->
  (method self = "correlation"%string -> length m1 = length m2) ->
  exists d,
    __call__ self (tensor2 m1) (tensor2 m2) ks = inr d /\
    (forall k, In k ks -> (100 <= k)%Z ->
       exists v, dict_get d (top_key k) = Some v /\ (v == 100)%Q) /\
    (forall k, In k ks -> (Z.of_nat (length m1) * k < 100)%Z ->
       exists v, dict_get d (top_key k) = Some v /\ (v == 0)%Q).
Proof.
  intros Hm Ha _ _ Hne Hle Hcorr.
  destruct (@call_valid self m1 m2 ks Hm Ha Hle Hcorr) as [ranks [Hcall [Hlen Hb]]].
  exists (score_report ranks (length m1) ks). split; [exact Hcall|].
  apply Forall_and_split in Hb. destruct Hb as [Hlo Hhi].
  rewrite <- Hlen in *.
  assert (Hr : ranks <> []).
  { intros ->. simpl in Hlen. destruct m1; [congruence | discriminate]. }
  split.
  - intros k Hk H100. rewrite (report_top _ _ _ _ Hk).
    eexists. split; [reflexivity|]. now apply top_score_full.
  - intros k Hk Hsmall. rewrite (report_top _ _ _ _ Hk).
    eexists. split; [reflexivity|].
    apply top_score_below_one; [exact Hlo|].
    now apply number_values_below_one.
Qed.

(* ================================================================== *)
(** * Shapes and values of the aggregations *)

Section AggregatorShapes.

Local Open Scope R_scope.

Lemma reduce_dim1_shape (red : list R -> R) (f : nat) (c : cube) :
  regular f c ->
  Forall (fun item => item <> []) c ->
  shape2 (length c) f (reduce_dim1 red c).
Proof.
  intros Hreg Hne. unfold shape2, reduce_dim1. split; [apply length_map|].
  apply Forall_forall. intros row Hrow.
  apply in_map_iff in Hrow. destruct Hrow as [item [<- Hitem]].
  rewrite length_map, length_seq.
  unfold regular in Hreg. rewrite Forall_forall in Hreg, Hne.
  specialize (Hreg item Hitem). specialize (Hne item Hitem).
  destruct item as [|s item]; [congruence|].
  simpl. now inversion Hreg.
Qed.

Lemma map3_regular (g : R -> R) (f : nat) (c : cube) :
  regular f c -> regular f (map (map (map g)) c).
Proof.
  unfold regular. intros H.
  apply Forall_forall. intros item Hitem.
  apply in_map_iff in Hitem. destruct Hitem as [item0 [<- H0]].
  apply Forall_forall. intros s Hs.
  apply in_map_iff in Hs. destruct Hs as [s0 [<- Hs0]].
  rewrite length_map.
  rewrite Forall_forall in H. specialize (H item0 H0).
  rewrite Forall_forall in H. now apply H.
Qed.

Lemma map3_nonempty (g : R -> R) (c : cube) :
  Forall (fun item => item <> []) c ->
  Forall (fun item => item <> []) (map (map (map g)) c).
Proof.
  intros H. apply Forall_forall. intros item Hitem.
  apply in_map_iff in Hitem. destruct Hitem as [item0 [<- H0]].
  rewrite Forall_forall in H. specialize (H item0 H0).
  destruct item0; [congruence | discriminate].
Qed.

Lemma as_cube_other_rank (emb : Tensor) : ndim emb <> 3%nat -> as_cube emb = None.
Proof.
  destruct emb as [n x]. unfold ndim. simpl.
  destruct n as [|[|[|[|n]]]]; intros H; try reflexivity. congruence.
Qed.

(** X13: each of the three aggregations turns a rank-3 input of shape
    (N, S, F), with at least one sample per item, into a rank-2 tensor of
    shape (N, F), and returns an input of any other rank unchanged. *)
Theorem aggregations_return_rank2 (agg : string) (f : nat) :
  In agg supported_aggregations ->
  exists g,
    dict_get _aggregs agg = Some g /\
    (forall c, regular f c -> Forall (fun item => item <> []) c ->
       exists out, g (tensor3 c) = tensor2 out /\ shape2 (length c) f out) /\
    (forall emb, ndim emb <> 3%nat -> g emb = emb).
Proof.
  simpl. intros [<- | [<- | [<- | []]]]; eexists; (split; [reflexivity|]); split.
  - intros c Hreg Hne. eexists. split; [reflexivity|].
    now apply reduce_dim1_shape.
  - intros emb H. unfold _mean. now rewrite as_cube_other_rank.
  - intros c Hreg Hne. eexists. split; [reflexivity|].
    now apply reduce_dim1_shape.
  - intros emb H. unfold _median. now rewrite as_cube_other_rank.
  - intros c Hreg Hne. eexists. split; [reflexivity|].
    apply map_map_shape. unfold mean_dim1.
    rewrite <- (length_map (map (map (fun x => ln (x + epsilon)))) c).
    apply reduce_dim1_shape; [now apply map3_regular | now apply map3_nonempty].
  - intros emb H. unfold _robust_mean. now rewrite as_cube_other_rank.
Qed.

Lemma insert_asc_perm (x : R) (l : list R) : Permutation (insert_asc x l) (x :: l).
Proof.
  induction l as [|y l IH]; simpl; [reflexivity|].
  destruct (Rleb x y); [reflexivity|].
  rewrite IH. apply perm_swap.
Qed.

Lemma sort_asc_permutation (l : list R) : Permutation (sort_asc l) l.
Proof.
  induction l as [|x l IH]; simpl; [reflexivity|].
  fold (sort_asc l). rewrite insert_asc_perm. now constructor.
Qed.

Lemma median_In (l : list R) : l <> [] -> In (median l) l.
Proof.
  intros Hne. unfold median.
  apply Permutation_in with (l := sort_asc l); [apply sort_asc_permutation|].
  apply nth_In. rewrite (Permutation_length (sort_asc_permutation l)).
  assert (0 < length l)%nat by (destruct l; [congruence | simpl; lia]).
  apply Nat.le_lt_trans with (m := (length l - 1)%nat); [|lia].
  apply Nat.Div0.div_le_upper_bound. lia.
Qed.

Lemma nth_map_seq (g : nat -> R) (f j : nat) :
  (j < f)%nat -> nth j (map g (seq 0 f)) 0 = g j.
Proof.
  intros Hj.
  rewrite (nth_indep _ 0 (g 0%nat)) by (now rewrite length_map, length_seq).
  rewrite map_nth, seq_nth by exact Hj. reflexivity.
Qed.

(** X14: the median aggregation never interpolates: for every item with at
    least one sample, each feature of the output is the value of that
    feature in one of the item's samples. *)
Theorem median_returns_a_sample_value (f : nat) (c : cube) :
  regular f c ->
  Forall (fun item => item <> []) c ->
  exists out,
    _median (tensor3 c) = tensor2 out /\
    Forall2 (fun item row =>
               forall j, (j < f)%nat -> In (nth j row 0) (sample_axis item j))
            c out.
Proof.
  intros Hreg Hne. eexists. split; [reflexivity|].
  unfold median_dim1, reduce_dim1.
  induction c as [|item c IH]; simpl; constructor.
  - inversion Hreg as [|? ? Hitem _]; inversion Hne as [|? ? Hn _]; subst.
    intros j Hj.
    destruct item as [|s item]; [congruence|].
    assert (Hf : length (hd [] (s :: item)) = f) by (simpl; now inversion Hitem).
    rewrite Hf, nth_map_seq by exact Hj.
    apply median_In. discriminate.
  - apply IH; [now inversion Hreg | now inversion Hne].
Qed.

End AggregatorShapes.

(* ================================================================== *)
(** * The entries of the correlation matrix *)

Section CorrelationEntries.

Local Open Scope R_scope.

Lemma nth_error_combine {B C} (l1 : list B) (l2 : list C) (j : nat) :
  nth_error (combine l1 l2) j
  = match nth_error l1 j, nth_error l2 j with
    | Some x, Some y => Some (x, y)
    | _, _ => None
    end.
Proof.
  revert l2 j. induction l1 as [|x l1 IH]; intros l2 j.
  - destruct j; reflexivity.
  - destruct l2 as [|y l2].
    + destruct j; simpl; [reflexivity|]. destruct (nth_error l1 j); reflexivity.
    + destruct j; simpl; [reflexivity | apply IH].
Qed.

Lemma entry_map_map {B C} (g : B -> C) (m : list (list B)) (i j : nat) :
  entry (map (map g) m) i j = option_map g (entry m i j).
Proof.
  unfold entry. rewrite nth_error_map.
  destruct (nth_error m i) as [row|]; simpl; [|reflexivity].
  apply nth_error_map.
Qed.

Lemma entry_div_last_axis (m : list (list xreal)) (v : list R) (i j : nat) :
  entry (div_last_axis m v) i j
  = match entry m i j, nth_error v j with
    | Some x, Some d => Some (xdiv x d)
    | _, _ => None
    end.
Proof.
  unfold entry, div_last_axis. rewrite nth_error_map.
  destruct (nth_error m i) as [row|]; simpl; [|reflexivity].
  rewrite nth_error_map, nth_error_combine.
  destruct (nth_error row j), (nth_error v j); reflexivity.
Qed.

Lemma xdiv_finite (r d : R) : d <> 0 -> xdiv (Finite r) d = Finite (r / d).
Proof.
  intros Hd. unfold xdiv.
  destruct (Reqb_spec d 0) as [E|_]; [contradiction | reflexivity].
Qed.

(** X15: under the correlation method with two inputs of N rows and F >= 1
    features each, entry
    (i, j) is 1 minus the dot product of the centred row i of the first
    input and the centred row j of the second input, divided by the norm of
    the centred row j of the first input and by the norm of the centred row
    j of the second input (both norms being non-zero): the first division
    uses row j, not row i, of the first input. *)
Theorem correlation_entry
    (f : nat) (X Y : matrix) (i j : nat) (a a' b : list R) :
  collection f X -> collection f Y ->
  length X = length Y ->
  nth_error X i = Some a ->
  nth_error X j = Some a' ->
  nth_error Y j = Some b ->
  let centered := fun row : list R => map (fun x => x - mean row) row in
  norm2 (centered a') <> 0 ->
  norm2 (centered b) <> 0 ->
  entry (_correlation X Y) i j
  = Some (Finite (1 - dot (centered a) (centered b)
                       / norm2 (centered a') / norm2 (centered b))).
Proof.
  intros _ _ _ Ha Ha' Hb centered Hn1 Hn2.
  unfold _correlation.
  rewrite entry_map_map, !entry_div_last_axis, entry_pairwise.
  unfold center. rewrite !nth_error_map, Ha, Ha', Hb. cbn [option_map].
  fold (centered a) (centered a') (centered b).
  rewrite xdiv_finite by exact Hn1. rewrite xdiv_finite by exact Hn2.
  reflexivity.
Qed.

End CorrelationEntries.

(* ================================================================== *)
(** * The additional theorems at concrete inputs *)

(** X1 on the 3 x 3 example compared against itself. *)
Lemma call_returns_percentages_witness :
  In (method default) supported_methods /\
  In (aggregate default) supported_aggregations /\
  collection 3 example_collection /\
  example_collection <> [] /\
  length example_collection <= length example_collection /\
  exists d,
    __call__ default (tensor2 example_collection) (tensor2 example_collection)
             [1; 5; 10]%Z = inr d /\
    (forall k, In k [1; 5; 10]%Z ->
       exists v, dict_get d (top_key k) = Some v /\ in_percent v) /\
    (exists v, dict_get d "mean_ranks" = Some v /\
               (100 / Qnat (length example_collection) <= v)%Q /\ (v <= 100)%Q) /\
    (exists v, dict_get d "exact_matching" = Some v /\ in_percent v).
Proof.
  assert (Hm : In (method default) supported_methods) by (simpl; tauto).
  assert (Ha : In (aggregate default) supported_aggregations) by (simpl; tauto).
  assert (Hc : collection 3 example_collection)
    by (split; [lia | repeat constructor]).
  assert (Hne : example_collection <> []) by discriminate.
  assert (Hle : length example_collection <= length example_collection) by lia.
  repeat (split; [assumption|]).
  apply (@call_returns_percentages default 3 example_collection example_collection
           [1; 5; 10]%Z Hm Ha Hc Hc Hne Hle).
  intros _. reflexivity.
Defined.

(** X2 on a first input of two rows and a second input of one row. *)
Lemma call_with_fewer_candidates_raises_witness :
  In (method default) pairwise_methods /\
  In (aggregate default) supported_aggregations /\
  collection 1 crossed_a /\
  collection 1 [[1]]%R /\
  length [[1]]%R < length crossed_a /\
  __call__ default (tensor2 crossed_a) (tensor2 [[1]]%R) [1; 5; 10]%Z
  = inl IndexError.
Proof.
  assert (Hm : In (method default) pairwise_methods) by (simpl; tauto).
  assert (Ha : In (aggregate default) supported_aggregations) by (simpl; tauto).
  assert (H1 : collection 1 crossed_a) by (split; [lia | repeat constructor]).
  assert (H2 : collection 1 [[1]]%R) by (split; [lia | repeat constructor]).
  assert (Hlt : length [[1]]%R < length crossed_a) by (simpl; lia).
  repeat (split; [assumption|]).
  exact (@call_with_fewer_candidates_raises default 1 crossed_a [[1]]%R
           [1; 5; 10]%Z Hm Ha H1 H2 Hlt).
Defined.

(** X3 with the mean and the median aggregation. *)
Lemma aggregation_unused_on_rank2_witness :
  In "mean"%string supported_aggregations /\
  In "median"%string supported_aggregations /\
  __call__ (__init__ "cosine" "mean") (tensor2 crossed_a) (tensor2 crossed_b) [5]%Z
  = __call__ (__init__ "cosine" "median") (tensor2 crossed_a) (tensor2 crossed_b) [5]%Z.
Proof.
  assert (H1 : In "mean"%string supported_aggregations) by (simpl; tauto).
  assert (H2 : In "median"%string supported_aggregations) by (simpl; tauto).
  repeat (split; [assumption|]).
  exact (@aggregation_unused_on_rank2 "cosine" "mean" "median"
           crossed_a crossed_b [5]%Z H1 H2).
Defined.

(** X4 for the default configuration. *)
Lemma call_aggregates_rank3_inputs_witness :
  In (aggregate default) supported_aggregations /\
  exists f,
    dict_get _aggregs (aggregate default) = Some f /\
    (forall c1 arr2,
       __call__ default (tensor3 c1) arr2 [1; 5; 10]%Z
       = __call__ default (f (tensor3 c1)) arr2 [1; 5; 10]%Z) /\
    (forall arr1 c2,
       __call__ default arr1 (tensor3 c2) [1; 5; 10]%Z
       = __call__ default arr1 (f (tensor3 c2)) [1; 5; 10]%Z).
Proof.
  assert (Ha : In (aggregate default) supported_aggregations) by (simpl; tauto).
  split; [exact Ha|].
  exact (@call_aggregates_rank3_inputs default [1; 5; 10]%Z Ha).
Defined.

(** X5 on the 3 x 3 example and the default percentages. *)
Lemma call_report_keys_witness :
  In (method default) supported_methods /\
  In (aggregate default) supported_aggregations /\
  collection 3 example_collection /\
  length example_collection <= length example_collection /\
  NoDup [1; 5; 10]%Z /\
  exists d,
    __call__ default (tensor2 example_collection) (tensor2 example_collection)
             [1; 5; 10]%Z = inr d /\
    dict_keys d = ["top1"; "top5"; "top10"; "mean_ranks"; "exact_matching"]%string.
Proof.
  assert (Hm : In (method default) supported_methods) by (simpl; tauto).
  assert (Ha : In (aggregate default) supported_aggregations) by (simpl; tauto).
  assert (Hc : collection 3 example_collection)
    by (split; [lia | repeat constructor]).
  assert (Hle : length example_collection <= length example_collection) by lia.
  assert (Hnd : NoDup [1; 5; 10]%Z).
  { repeat constructor; simpl; intuition discriminate. }
  repeat (split; [assumption|]).
  apply (@call_report_keys default 3 example_collection example_collection
           [1; 5; 10]%Z Hm Ha Hc Hc Hle); [|exact Hnd].
  intros _. reflexivity.
Defined.

(** X6 for the cosine method on the two crossed collections. *)
Lemma distance_matrix_transposes_witness :
  In "cosine"%string pairwise_methods /\
  collection 1 crossed_a /\
  collection 1 crossed_b /\
  exists dist,
    dict_get _methods "cosine" = Some dist /\
    entry (dist crossed_a crossed_b) 0 1 = entry (dist crossed_b crossed_a) 1 0.
Proof.
  assert (H : In "cosine"%string pairwise_methods) by (simpl; tauto).
  assert (H1 : collection 1 crossed_a) by (split; [lia | repeat constructor]).
  assert (H2 : collection 1 crossed_b) by (split; [lia | repeat constructor]).
  repeat (split; [assumption|]).
  destruct (@distance_matrix_transposes "cosine" 1 H) as [dist [Hd Hsym]].
  exists dist. split; [exact Hd|]. exact (Hsym crossed_a crossed_b 0 1 H1 H2).
Defined.

(** X7 for the cityblock method on the 3 x 3 example. *)
Lemma self_distance_zero_diagonal_witness :
  In "cityblock"%string ["euclidean"; "chebyshev"; "minkowski"; "cityblock"]%string /\
  collection 3 example_collection /\
  1 < length example_collection /\
  exists dist,
    dict_get _methods "cityblock" = Some dist /\
    entry (dist example_collection example_collection) 1 1 = Some (Finite 0).
Proof.
  assert (H : In "cityblock"%string
                 ["euclidean"; "chebyshev"; "minkowski"; "cityblock"]%string)
    by (simpl; tauto).
  assert (Hc : collection 3 example_collection)
    by (split; [lia | repeat constructor]).
  assert (Hi : 1 < length example_collection) by (simpl; lia).
  repeat (split; [assumption|]).
  exact (@self_distance_zero_diagonal "cityblock" 3 example_collection 1 H Hc Hi).
Defined.


(** X10 on the distance matrix of two matched items: both diagonal entries
    are the smallest of their column, and both ranks are 2. *)
Lemma ranks_of_extreme_diagonal_witness :
  square 2 two_matched_items /\
  _compute_diag_ranks xgtb two_matched_items = inr (repeat 2 2).
Proof.
  assert (Hsq : square 2 two_matched_items).
  { split; [reflexivity | repeat constructor]. }
  split; [exact Hsq|].
  apply (proj2 (@ranks_of_extreme_diagonal 2 two_matched_items Hsq)).
  intros i j v w Hne Hv Hw.
  destruct i as [|[|i]], j as [|[|j]]; simpl in Hv, Hw;
    try congruence; try (destruct i; discriminate); try (destruct j; discriminate);
    injection Hv as <-; injection Hw as <-; simpl;
    destruct (Rgtb_spec 1 0) as [_|Hn]; try reflexivity; exfalso; lra.
Defined.


(** X12 on the 3 x 3 example with the percentages 10 and 100. *)
Lemma top_scores_at_the_extremes_witness :
  In (method default) supported_methods /\
  In (aggregate default) supported_aggregations /\
  collection 3 example_collection /\
  example_collection <> [] /\
  length example_collection <= length example_collection /\
  exists d,
    __call__ default (tensor2 example_collection) (tensor2 example_collection)
             [10; 100]%Z = inr d /\
    (exists v, dict_get d "top100" = Some v /\ (v == 100)%Q) /\
    (exists v, dict_get d "top10" = Some v /\ (v == 0)%Q).
Proof.
  assert (Hm : In (method default) supported_methods) by (simpl; tauto).
  assert (Ha : In (aggregate default) supported_aggregations) by (simpl; tauto).
  assert (Hc : collection 3 example_collection)
    by (split; [lia | repeat constructor]).
  assert (Hne : example_collection <> []) by discriminate.
  assert (Hle : length example_collection <= length example_collection) by lia.
  repeat (split; [assumption|]).
  destruct (@top_scores_at_the_extremes default 3 example_collection
              example_collection [10; 100]%Z Hm Ha Hc Hc Hne Hle (fun _ => eq_refl))
    as [d [Hd [Hfull Hnone]]].
  exists d. split; [exact Hd|]. split.
  - apply (Hfull 100%Z); [simpl; tauto | lia].
  - apply (Hnone 10%Z); [simpl; tauto | simpl; lia].
Defined.

(** X13 for the robust mean and three features. *)
Lemma aggregations_return_rank2_witness :
  In "robust_mean"%string supported_aggregations /\
  exists g,
    dict_get _aggregs "robust_mean" = Some g /\
    (forall c, regular 3 c -> Forall (fun item => item <> []) c ->
       exists out, g (tensor3 c) = tensor2 out /\ shape2 (length c) 3 out) /\
    (forall emb, ndim emb <> 3 -> g emb = emb).
Proof.
  assert (H : In "robust_mean"%string supported_aggregations) by (simpl; tauto).
  split; [exact H|].
  exact (@aggregations_return_rank2 "robust_mean" 3 H).
Defined.

(** X14 on one item with two samples of two features. *)
Lemma median_returns_a_sample_value_witness :
  regular 2 [[[1; 2]; [3; 4]]]%R /\
  Forall (fun item : list (list R) => item <> []) [[[1; 2]; [3; 4]]]%R /\
  exists out,
    _median (tensor3 [[[1; 2]; [3; 4]]]%R) = tensor2 out /\
    Forall2 (fun item row =>
               forall j, j < 2 -> In (nth j row 0%R) (sample_axis item j))
            [[[1; 2]; [3; 4]]]%R out.
Proof.
  assert (H0 : regular 2 [[[1; 2]; [3; 4]]]%R) by (repeat constructor).
  assert (H1 : Forall (fun item : list (list R) => item <> [])
                      [[[1; 2]; [3; 4]]]%R)
    by (repeat constructor; discriminate).
  repeat (split; [assumption|]).
  exact (@median_returns_a_sample_value 2 [[[1; 2]; [3; 4]]]%R H0 H1).
Defined.

(** X15 on a 2 x 2 collection compared against itself, at entry (0, 1). *)
Lemma correlation_entry_witness :
  let X : matrix := [[1; 2]; [3; 5]]%R in
  let centered := fun row : list R => map (fun x => (x - mean row)%R) row in
  collection 2 X /\
  length X = length X /\
  nth_error X 0 = Some [1; 2]%R /\
  nth_error X 1 = Some [3; 5]%R /\
  norm2 (centered [3; 5]%R) <> 0%R /\
  entry (_correlation X X) 0 1
  = Some (Finite (1 - dot (centered [1; 2]) (centered [3; 5])
                       / norm2 (centered [3; 5]) / norm2 (centered [3; 5]))%R).
Proof.
  intros X centered.
  assert (Hc : collection 2 X) by (split; [lia | repeat constructor]).
  assert (H0 : length X = length X) by reflexivity.
  assert (H1 : nth_error X 0 = Some [1; 2]%R) by reflexivity.
  assert (H2 : nth_error X 1 = Some [3; 5]%R) by reflexivity.
  assert (H3 : norm2 (centered [3; 5]%R) <> 0%R).
  { apply Rgt_not_eq. apply norm2_pos. unfold centered, mean. simpl.
    replace ((3 + (5 + 0)) / (1 + 1))%R with 4%R by field. lra. }
  repeat (split; [assumption|]).
  exact (@correlation_entry 2 X X 0 1 [1; 2]%R [3; 5]%R [3; 5]%R
           Hc Hc H0 H1 H2 H2 H3 H3).
Defined.

(* ================================================================== *)
(** * The rank extractor on a matrix that is not square *)

(** X16: on a matrix of N rows and M columns the rank extractor looks at the
    first N columns only: with M >= N it returns N ranks between 1 and N,
    and with M < N it raises [IndexError].  This holds for any comparison
    used by the sort. *)
Theorem compute_diag_ranks_rectangular {A} (gtb : A -> A -> bool)
    (n f : nat) (m : list (list A)) :
  shape2 n f m ->
  (n <= f ->
   exists ranks,
     _compute_diag_ranks gtb m = inr ranks /\
     length ranks = n /\
     Forall (fun r => 1 <= r <= n) ranks) /\
  (f < n -> _compute_diag_ranks gtb m = inl IndexError).
Proof.
  intros Hshape. split; intros H.
  - now apply (compute_diag_ranks_wide gtb Hshape).
  - now apply (compute_diag_ranks_narrow gtb Hshape).
Qed.

(** X16 on a 2 x 3 and on a 2 x 1 matrix of integers. *)
Lemma compute_diag_ranks_rectangular_witness :
  shape2 2 3 [[3; 1; 0]; [2; 4; 0]] /\
  shape2 2 1 [[3]; [2]] /\
  (exists ranks,
     _compute_diag_ranks (fun a b => Nat.ltb b a) [[3; 1; 0]; [2; 4; 0]] = inr ranks /\
     length ranks = 2 /\
     Forall (fun r => 1 <= r <= 2) ranks) /\
  _compute_diag_ranks (fun a b => Nat.ltb b a) [[3]; [2]] = inl IndexError.
Proof.
  assert (H1 : shape2 2 3 [[3; 1; 0]; [2; 4; 0]])
    by (split; [reflexivity | repeat constructor]).
  assert (H2 : shape2 2 1 [[3]; [2]])
    by (split; [reflexivity | repeat constructor]).
  repeat (split; [assumption|]).
  split.
  - apply (proj1 (@compute_diag_ranks_rectangular nat (fun a b => Nat.ltb b a)
                    2 3 [[3; 1; 0]; [2; 4; 0]] H1)). lia.
  - apply (proj2 (@compute_diag_ranks_rectangular nat (fun a b => Nat.ltb b a)
                    2 1 [[3]; [2]] H2)). lia.
Defined.




(* ================================================================== *)
(** * The order of the samples *)

Section SampleOrder.










End SampleOrder.


(* ================================================================== *)
(** * Signs of the norm distances *)

Section NormSigns.

Local Open Scope R_scope.

Lemma pairwise_never_negative (g : list R -> list R -> R) (X Y : matrix) :
  (forall a b, 0 <= g a b) ->
  never_negative (pairwise (fun a b => Finite (g a b)) X Y).
Proof.
  intros H. unfold never_negative, pairwise.
  apply Forall_forall. intros row Hrow.
  apply in_map_iff in Hrow. destruct Hrow as [a [<- _]].
  apply Forall_forall. intros x Hx.
  apply in_map_iff in Hx. destruct Hx as [b [<- _]].
  right. eexists. split; [reflexivity | apply H].
Qed.

(** X8: for two collections with the same number F >= 1 of features, no
    entry of the euclidean, chebyshev, minkowski and cityblock distance
    matrices is negative or NaN. *)
Theorem norm_distances_never_negative (f : nat) (X Y : matrix) :
  collection f X -> collection f Y ->
  never_negative (_euclidean X Y) /\
  never_negative (_chebyshev X Y) /\
  never_negative (_minkowski X Y) /\
  never_negative (_cityblock X Y).
Proof.
  intros _ _. repeat split.
  - apply (pairwise_never_negative (fun a b => norm2 (sub a b))).
    intros a b. apply norm2_nonneg.
  - apply (pairwise_never_negative (fun a b => max_list (map Rabs (sub a b)))).
    intros a b. apply max_list_abs_nonneg.
  - apply (pairwise_never_negative (fun a b => norm 3 (sub a b))).
    intros a b. apply pow_nonneg.
  - apply (pairwise_never_negative (fun a b => sum (map Rabs (sub a b)))).
    intros a b. apply sum_abs_nonneg.
Qed.

(** X9: for two vectors that differ in a single coordinate, the cityblock
    and the chebyshev distance coincide. *)
Theorem cityblock_is_chebyshev_on_one_coordinate (l1 l2 : list R) (x y : R) :
  _cityblock [l1 ++ x :: l2] [l1 ++ y :: l2]
  = _chebyshev [l1 ++ x :: l2] [l1 ++ y :: l2].
Proof.
  unfold _cityblock, _chebyshev, pairwise. simpl.
  rewrite !sub_one_coordinate. do 3 f_equal.
  rewrite max_abs_one_coordinate.
  apply (sum_map_one_coordinate Rabs). apply Rabs_R0.
Qed.

End NormSigns.

(** X8 on the two crossed collections. *)
Lemma norm_distances_never_negative_witness :
  collection 1 crossed_a /\
  collection 1 crossed_b /\
  never_negative (_euclidean crossed_a crossed_b) /\
  never_negative (_chebyshev crossed_a crossed_b) /\
  never_negative (_minkowski crossed_a crossed_b) /\
  never_negative (_cityblock crossed_a crossed_b).
Proof.
  assert (H1 : collection 1 crossed_a) by (split; [lia | repeat constructor]).
  assert (H2 : collection 1 crossed_b) by (split; [lia | repeat constructor]).
  repeat (split; [assumption|]).
  exact (@norm_distances_never_negative 1 crossed_a crossed_b H1 H2).
Defined.

(* ================================================================== *)
(** * A collection compared against itself, no two items at distance 0 *)

Section SelfRanks.

Local Open Scope R_scope.

Lemma self_euclidean_ranks_last (X : matrix) :
  (forall i j w, i <> j -> entry (_euclidean X X) j i = Some w ->
                 xgtb w (Finite 0) = true) ->
  _compute_diag_ranks xgtb (_euclidean X X)
  = inr (repeat (length X) (length X)).
Proof.
  intros Hpos.
  apply (extreme_diagonal_ranks
           (pairwise_square (fun a b => Finite (norm2 (sub a b))) X)).
  intros i j v w Hne Hv Hw.
  assert (Ev : v = Finite 0).
  { unfold _euclidean in Hv. rewrite entry_pairwise in Hv.
    destruct (nth_error X i) as [a|]; [|discriminate].
    injection Hv as <-. now rewrite norm2_sub_self. }
  subst v. now apply (Hpos i j).
Qed.

(** Rows of equal length that are pairwise different are at positive
    distances, in exact arithmetic. *)
Lemma distinct_rows_positive_distance (f : nat) (X : matrix) :
  Forall (fun row => length row = f) X ->
  NoDup X ->
  forall i j w, i <> j -> entry (_euclidean X X) j i = Some w ->
                xgtb w (Finite 0) = true.
Proof.
  intros Hreg Hnd i j w Hne Hw.
  unfold _euclidean in Hw. rewrite entry_pairwise in Hw.
  destruct (nth_error X j) as [b|] eqn:Hb; [|discriminate].
  destruct (nth_error X i) as [a|] eqn:Ha; [|discriminate].
  injection Hw as <-. simpl.
  destruct (Rgtb_spec (norm2 (sub b a)) 0) as [_|Hn]; [reflexivity|].
  exfalso. apply Hn. apply Rlt_gt. apply norm2_sub_pos.
  - rewrite Forall_forall in Hreg.
    rewrite (Hreg a), (Hreg b); [reflexivity | | ];
      eapply nth_error_In; eassumption.
  - intros ->. apply Hne.
    apply (proj1 (NoDup_nth_error X) Hnd); [|congruence].
    apply nth_error_Some. congruence.
Qed.

(** X11: when a collection is compared against itself under the euclidean
    metric and every off-diagonal entry of the distance matrix is greater
    than 0, every item gets the rank N (its own row, at distance 0, is
    sorted last in its column), and the call returns the report of that
    rank vector. *)
Theorem self_comparison_ranks_every_item_last
    (agg : string) (X : matrix) (ks : list Z) :
  In agg supported_aggregations ->
  (forall i j w, i <> j -> entry (_euclidean X X) j i = Some w ->
                 xgtb w (Finite 0) = true) ->
  _compute_diag_ranks xgtb (_euclidean X X) = inr (repeat (length X) (length X)) /\
  __call__ (__init__ "euclidean" agg) (tensor2 X) (tensor2 X) ks
  = inr (score_report (repeat (length X) (length X)) (length X) ks).
Proof.
  intros Hagg Hpos.
  pose proof (self_euclidean_ranks_last X Hpos) as Hranks.
  split; [exact Hranks|].
  rewrite (@call_rank2 (__init__ "euclidean" agg) X X ks _euclidean);
    [ | reflexivity | exact Hagg ].
  rewrite Hranks. simpl. unfold ret. do 2 f_equal.
  unfold _euclidean, pairwise. apply length_map.
Qed.

End SelfRanks.

(** X11 on the 3 x 3 example. *)
Lemma self_comparison_ranks_every_item_last_witness :
  In "mean"%string supported_aggregations /\
  (forall i j w, i <> j ->
     entry (_euclidean example_collection example_collection) j i = Some w ->
     xgtb w (Finite 0) = true) /\
  _compute_diag_ranks xgtb (_euclidean example_collection example_collection)
  = inr [3; 3; 3] /\
  __call__ (__init__ "euclidean" "mean") (tensor2 example_collection)
           (tensor2 example_collection) [1; 5; 10]%Z
  = inr (score_report [3; 3; 3] 3 [1; 5; 10]%Z).
Proof.
  assert (Ha : In "mean"%string supported_aggregations) by (simpl; tauto).
  assert (Hpos : forall i j w, i <> j ->
            entry (_euclidean example_collection example_collection) j i = Some w ->
            xgtb w (Finite 0) = true).
  { apply (@distinct_rows_positive_distance 3).
    - repeat constructor.
    - unfold example_collection.
      repeat constructor; simpl; intros H;
        repeat (destruct H as [H|H]; [injection H; intros; lra|]); exact H. }
  repeat (split; [assumption|]).
  exact (@self_comparison_ranks_every_item_last "mean" example_collection
           [1; 5; 10]%Z Ha Hpos).
Defined.
